(** * HOAG outer loop: a shallow embedding of [hoag_kernel._minimize_lbfgsb]

    The routine drives a fixed number of outer iterations of an
    adaptive-step descent over the hyperparameters.  Every iteration calls
    five user oracles and scipy's conjugate-gradient solver, assembles the
    hypergradient, and updates the step-size state [L_lambda] and the inner
    tolerance [epsilon_tol].

    Modelling conventions.
    - numpy floats are idealised as exact rationals ([Q]); the one place
      where the code itself introduces an infinity ([g_func_old = np.inf])
      and the loss returned by the user oracle are carried in [xfloat],
      which has the IEEE special values.
    - 1-D arrays are [list Q]; arithmetic between arrays follows numpy's
      broadcasting and raises on a shape mismatch.
    - Python exceptions are the [Raise] case of [result]; calls to the
      oracles, to [cg] and to the callback are recorded in a log, so that
      the order and number of invocations can be stated.
    - the oracles, [cg] and [linalg.norm] are functions of their arguments
      (the same call gives the same answer); the oracles, [cg] and the
      callback may raise.
    - [print] output is not modelled.

    The two estimator classes of the file, [KernelRidgeCV] and
    [KernelRidge], are embedded in [Estimators], with sklearn's kernels and
    [np.exp] as parameters. *)

From Stdlib Require Import String List ZArith QArith Qpower Qminmax Qabs Lia Lqa Bool.
Import ListNotations.
Open Scope list_scope.
Open Scope Q_scope.

(** ** Values *)

Definition vec := list Q.
Definition matrix := list vec.

Inductive exn :=
| ValueError (msg : string)
| NotImplementedError
| ZeroDivisionError
| MemoryError.

Inductive result (A : Type) :=
| Ok (a : A)
| Raise (e : exn).
Arguments Ok {A} a.
Arguments Raise {A} e.

(** The second component of what [splinalg.cg] returns.  scipy documents it
    as an integer [info] (0: converged, > 0: tolerance not reached, < 0:
    illegal input or breakdown); the type also has Python's booleans, since
    the source compares the value with [False]. *)
Inductive pyobj :=
| PyBool (b : bool)
| PyInt (n : Z).

(** [v is False]: identity with the singleton [False]. *)
Definition is_False (v : pyobj) : bool :=
  match v with
  | PyBool false => true
  | _ => false
  end.

(** Floats that may be infinite or NaN. *)
Inductive xfloat :=
| Fin (q : Q)
| PInf
| NInf
| NaN.

Definition xadd (a b : xfloat) : xfloat :=
  match a, b with
  | NaN, _ | _, NaN => NaN
  | PInf, NInf | NInf, PInf => NaN
  | PInf, _ | _, PInf => PInf
  | NInf, _ | _, NInf => NInf
  | Fin x, Fin y => Fin (x + y)
  end.

Definition xneg (a : xfloat) : xfloat :=
  match a with
  | Fin x => Fin (- x)
  | PInf => NInf
  | NInf => PInf
  | NaN => NaN
  end.

Definition xsub (a b : xfloat) : xfloat := xadd a (xneg b).

(** [a <= b] on floats: false as soon as one side is NaN. *)
Definition xle (a b : xfloat) : bool :=
  match a, b with
  | NaN, _ | _, NaN => false
  | NInf, _ | _, PInf => true
  | PInf, _ | _, NInf => false
  | Fin x, Fin y => Qle_bool x y
  end.

Definition xfinite (a : xfloat) : Prop :=
  match a with Fin _ => True | _ => False end.

(** ** numpy array arithmetic *)

Fixpoint map2 (f : Q -> Q -> Q) (a b : vec) : vec :=
  match a, b with
  | x :: a', y :: b' => f x y :: map2 f a' b'
  | _, _ => []
  end.

(** Element-wise operation on two 1-D arrays under numpy broadcasting. *)
Definition broadcast (f : Q -> Q -> Q) (a b : vec) : result vec :=
  if (length a =? length b)%nat then Ok (map2 f a b)
  else if (length b =? 1)%nat then Ok (map (fun x => f x (hd 0 b)) a)
  else if (length a =? 1)%nat then Ok (map (fun y => f (hd 0 a) y) b)
  else Raise (ValueError "operands could not be broadcast together").

Definition vsub : vec -> vec -> result vec := broadcast Qminus.

(** [s * v] for a scalar [s]. *)
Definition scale (s : Q) (v : vec) : vec := map (fun y => s * y) v.

Definition inner (a b : vec) : Q := fold_right Qplus 0 (map2 Qmult a b).

(** [A.dot(q)] for a 2-D array [A] (a list of rows) and a 1-D array [q]:
    the last axis of [A] is contracted with [q]. *)
Definition dot (A : matrix) (q : vec) : result vec :=
  if forallb (fun row => (length row =? length q)%nat) A
  then Ok (map (fun row => inner row q) A)
  else Raise (ValueError "shapes not aligned").

(** The built-in [max(a, b)]: [b] when [b > a], else [a]. *)
Definition py_max (a b : Q) : Q := if Qle_bool b a then a else b.

(** [a / b] on Python floats. *)
Definition fdiv (a b : Q) : result Q :=
  if Qeq_bool b 0 then Raise ZeroDivisionError else Ok (a / b).

(** [range(a, b)]. *)
Definition py_range (a b : Z) : list Z :=
  map (fun k => (a + Z.of_nat k)%Z) (seq 0 (Z.to_nat (b - a))).

(** ** Effects: a log of calls and exceptions *)

Inductive event :=
| Call_h_sol_approx (x lam : vec) (tol : Q)
| Call_h_hessian (x lam : vec)
| Call_g_func_grad (x lam : vec)
| Call_cg (rhs : vec) (guess : option vec) (tol : Q)
| Call_g_cross (x lam : vec)
| Call_h_crossed (x lam : vec)
| Call_callback (x lam : vec).

Definition log := list event.

Definition M (A : Type) : Type := log -> result A * log.

Definition ret {A} (a : A) : M A := fun l => (Ok a, l).

Definition raise {A} (e : exn) : M A := fun l => (Raise e, l).

Definition bind {A B} (m : M A) (k : A -> M B) : M B :=
  fun l =>
    match m l with
    | (Ok a, l') => k a l'
    | (Raise e, l') => (Raise e, l')
    end.

(** An operation that is not logged. *)
Definition lift {A} (r : result A) : M A := fun l => (r, l).

(** A logged call whose outcome is [r]. *)
Definition call {A} (ev : event) (r : result A) : M A :=
  fun l => (r, l ++ [ev]).

Notation "x <- m ;; k" := (bind m (fun x => k))
  (at level 61, m at next level, right associativity).
Notation "' pat <- m ;; k" := (bind m (fun x => match x with pat => k end))
  (at level 61, pat pattern, m at next level, right associativity).

(** ** The environment of the routine *)

(** [splinalg.LinearOperator(shape=..., matvec=...)]. *)
Record LinearOperator := {
  shape : nat * nat;
  matvec : vec -> vec
}.

(** The library functions the routine calls: scipy's [cg] and
    [linalg.norm], and numpy's [zeros] on a size that is not negative,
    which returns the array or raises ([MemoryError], or [ValueError] for a
    size numpy cannot represent) depending on the platform and on the
    memory left. *)
Record scipy := {
  cg : LinearOperator -> vec -> option vec -> Q -> result (vec * pyobj);
  norm : vec -> Q;
  zeros : Z -> result unit
}.

(** The five oracles, named as the parameters of [_minimize_lbfgsb]. *)
Record oracles := {
  h_sol_approx : vec -> vec -> Q -> result vec;
  h_hessian : vec -> vec -> result (vec -> vec);
  h_crossed : vec -> vec -> result matrix;
  g_func_grad : vec -> vec -> result (xfloat * vec);
  g_cross : vec -> vec -> result vec
}.

(** The remaining parameters.  [disp] and [ftol] have no effect on the
    control flow and are left out. *)
Record args := {
  arg_x0 : vec;
  bounds : option (list (option Q * option Q));
  lambda0 : vec;
  maxcor : Z;
  maxiter : Z;
  maxls : Z;
  tolerance_decrease : string;
  callback : option (vec -> vec -> result unit)
}.

(** The variables that live across iterations. *)
Record state := {
  x0 : vec;
  lambdak : vec;
  epsilon_tol : Q;
  qk : option vec;
  L_lambda : option Q;
  g_func_old : xfloat;
  old_grads : list Q
}.

(** What lines 120-134 compute in one iteration. *)
Record probe := {
  p_x0 : vec;
  p_g_func : xfloat;
  p_qk : vec;
  p_grad_lambda : vec
}.

Definition epsilon_tol_init : Q := 1e-3.
Definition exact_epsilon : Q := 1e-24.

Section Kernel.

Variable lib : scipy.
Variable O : oracles.
Variable a : args.

(** Lines 120-134: inner solve, Hessian operator, outer loss and gradient,
    Krylov solve, hypergradient. *)
Definition assemble (st : state) : M probe :=
  x1 <- call (Call_h_sol_approx (x0 st) (lambdak st) (epsilon_tol st))
             (h_sol_approx O (x0 st) (lambdak st) (epsilon_tol st)) ;;
  fhs <- call (Call_h_hessian x1 (lambdak st)) (h_hessian O x1 (lambdak st)) ;;
  let Hessfunc := {| shape := (length x1, length x1);
                     matvec := fun z => fhs z |} in
  '(g_func, g_grad) <- call (Call_g_func_grad x1 (lambdak st))
                            (g_func_grad O x1 (lambdak st)) ;;
  '(q1, success) <- call (Call_cg g_grad (qk st) (epsilon_tol st))
                         (cg lib Hessfunc g_grad (qk st) (epsilon_tol st)) ;;
  if is_False success then raise (ValueError "")
  else
    gc <- call (Call_g_cross x1 (lambdak st)) (g_cross O x1 (lambdak st)) ;;
    hc <- call (Call_h_crossed x1 (lambdak st)) (h_crossed O x1 (lambdak st)) ;;
    hq <- lift (dot hc q1) ;;
    grad_lambda <- lift (vsub gc hq) ;;
    ret {| p_x0 := x1; p_g_func := g_func; p_qk := q1;
           p_grad_lambda := grad_lambda |}.

(** Lines 157-166: the schedule of the inner tolerance. *)
Definition decrease (mode : string) (it : Z) (eps : Q) : result Q :=
  if (mode =? "quadratic")%string then fdiv epsilon_tol_init (inject_Z it ^ 2)
  else if (mode =? "cubic")%string then fdiv epsilon_tol_init (inject_Z it ^ 3)
  else if (mode =? "exponential")%string then Ok (eps * 0.5)
  else if (mode =? "exact")%string then Ok 1e-24
  else Raise NotImplementedError.

(** The right-hand side of the test of lines 173-174, with [C = 1]. *)
Definition decrease_bound (prev_loss : xfloat) (eps old_eps incr L : Q) : xfloat :=
  let C := 1 in
  xsub (xadd (xadd prev_loss (Fin (C * eps)))
             (Fin (old_eps * (C + 1) * incr)))
       (Fin (L / 2 * incr * incr)).

Definition run_callback (x lam : vec) : M unit :=
  match callback a with
  | None => ret tt
  | Some cb => call (Call_callback x lam) (cb x lam)
  end.

(** Lines 148-194, entered with the value [L] of [L_lambda]. *)
Definition step (it : Z) (st : state) (pr : probe) (grads : list Q) (L : Q)
  : M state :=
  let pk := p_grad_lambda pr in
  let old_lambdak := lambdak st in
  let step_size := 1 / L in
  tmp <- lift (vsub (lambdak st) (scale step_size pk)) ;;
  let old_epsilon_tol := epsilon_tol st in
  eps1 <- lift (decrease (tolerance_decrease a) it (epsilon_tol st)) ;;
  let eps2 := py_max eps1 exact_epsilon in
  dl <- lift (vsub tmp old_lambdak) ;;
  let incr := norm lib dl in
  let L' :=
    if xle (p_g_func pr) (decrease_bound (g_func_old st) eps2 old_epsilon_tol incr L)
    then L * 0.8
    else L * 1.2 in
  _ <- run_callback (p_x0 pr) tmp ;;
  ret {| x0 := p_x0 pr; lambdak := tmp; epsilon_tol := eps2;
         qk := Some (p_qk pr); L_lambda := Some L';
         g_func_old := p_g_func pr; old_grads := grads |}.

(** Lines 135-146: record the norm, then either skip the iteration
    ([continue]) or go on to the step. *)
Definition control (it : Z) (st : state) (pr : probe) : M state :=
  let grads := old_grads st ++ [norm lib (p_grad_lambda pr)] in
  match L_lambda st with
  | None =>
      if Qeq_bool (last grads 0) 0
      then ret {| x0 := p_x0 pr; lambdak := lambdak st;
                  epsilon_tol := epsilon_tol st * 0.1;
                  qk := Some (p_qk pr); L_lambda := None;
                  g_func_old := g_func_old st; old_grads := grads |}
      else step it st pr grads (5 * norm lib (p_grad_lambda pr))
  | Some L => step it st pr grads L
  end.

(** The body of the [for] loop. *)
Definition body (it : Z) (st : state) : M state :=
  pr <- assemble st ;; control it st pr.

Fixpoint loop (its : list Z) (st : state) : M state :=
  match its with
  | [] => ret st
  | it :: rest => st' <- body it st ;; loop rest st'
  end.

(** The state on entry to the loop (lines 102-111). *)
Definition init_state : state :=
  {| x0 := arg_x0 a;
     lambdak := lambda0 a;
     epsilon_tol := if (tolerance_decrease a =? "exact")%string
                    then exact_epsilon else epsilon_tol_init;
     qk := None;
     L_lambda := None;
     g_func_old := PInf;
     old_grads := [] |}.

(** Size of the work array [wa] (line 92). *)
Definition wa_size : Z :=
  let m := maxcor a in
  let n := Z.of_nat (length (arg_x0 a)) in
  (2 * m * n + 5 * n + 11 * m * m + 8 * m)%Z.

(** [_minimize_lbfgsb].  Lines 63-86 and 93-100 fill work arrays that
    nothing reads afterwards.  Their sizes are fixed or proportional to
    that of [x0], which is in memory already, and their allocation is taken
    to succeed; the allocation of [wa] (line 92), whose size grows with
    [maxcor], is kept: it fails on a negative size and otherwise does what
    [zeros] does. *)
Definition minimize : M (vec * vec * Z) :=
  let n := length (arg_x0 a) in
  let bnds := match bounds a with
              | None => repeat (None, None) n
              | Some b => b
              end in
  if negb (length bnds =? n)%nat
  then raise (ValueError "length of x0 != length of bounds")
  else if negb (0 <? maxls a)%Z
  then raise (ValueError "maxls must be positive.")
  else if (wa_size <? 0)%Z
  then raise (ValueError "negative dimensions are not allowed")
  else
    _ <- lift (zeros lib wa_size) ;;
    _ <- run_callback (arg_x0 a) (lambda0 a) ;;
    st <- loop (py_range 1 (maxiter a)) init_state ;;
    ret (x0 st, lambdak st, 0%Z).

End Kernel.

(** ** Vocabulary of the statements *)

(** The four modes the schedule recognises. *)
Definition valid_mode (mode : string) : Prop :=
  mode = "exponential"%string \/ mode = "quadratic"%string \/
  mode = "cubic"%string \/ mode = "exact"%string.

(** A configuration the specification calls invalid. *)
Definition invalid_configuration (a : args) : Prop :=
  (maxls a <= 0)%Z \/
  (exists b, bounds a = Some b /\ length b <> length (arg_x0 a)) \/
  ~ valid_mode (tolerance_decrease a).

(** [sum_{j < n} f j]. *)
Fixpoint bigsum (n : nat) (f : nat -> Q) : Q :=
  match n with
  | O => 0
  | S k => f O + bigsum k (fun j => f (S j))
  end.

Definition entry (A : matrix) (i j : nat) : Q := nth j (nth i A []) 0.

(** [grad = gc - A q], component by component. *)
Definition direct_formula (gc : vec) (A : matrix) (q grad : vec) : Prop :=
  length grad = length A /\
  forall i, (i < length grad)%nat ->
    nth i grad 0 = nth i gc 0 - bigsum (length q) (fun j => entry A i j * nth j q 0).

(** The formula as the specification words it, [grad = gc - A^t q]. *)
Definition transposed_formula (gc : vec) (A : matrix) (q grad : vec) : Prop :=
  forall i, (i < length grad)%nat ->
    nth i grad 0 == nth i gc 0 - bigsum (length q) (fun j => entry A j i * nth j q 0).

(** Counting the calls of one kind in a log. *)
Inductive kind :=
| K_h_sol_approx | K_h_hessian | K_g_func_grad | K_cg | K_g_cross
| K_h_crossed | K_callback.

Definition kind_of (e : event) : kind :=
  match e with
  | Call_h_sol_approx _ _ _ => K_h_sol_approx
  | Call_h_hessian _ _ => K_h_hessian
  | Call_g_func_grad _ _ => K_g_func_grad
  | Call_cg _ _ _ => K_cg
  | Call_g_cross _ _ => K_g_cross
  | Call_h_crossed _ _ => K_h_crossed
  | Call_callback _ _ => K_callback
  end.

Definition kind_eqb (k1 k2 : kind) : bool :=
  match k1, k2 with
  | K_h_sol_approx, K_h_sol_approx | K_h_hessian, K_h_hessian
  | K_g_func_grad, K_g_func_grad | K_cg, K_cg | K_g_cross, K_g_cross
  | K_h_crossed, K_h_crossed | K_callback, K_callback => true
  | _, _ => false
  end.

Definition calls (k : kind) (l : log) : nat :=
  length (filter (fun e => kind_eqb (kind_of e) k) l).

(** The six calls every iteration is specified to make once. *)
Definition oracle_kinds : list kind :=
  [K_h_sol_approx; K_h_hessian; K_g_func_grad; K_cg; K_g_cross; K_h_crossed].

(** The tolerance passed to the inner solver, call after call. *)
Fixpoint inner_tolerances (l : log) : list Q :=
  match l with
  | [] => []
  | Call_h_sol_approx _ _ tol :: l' => tol :: inner_tolerances l'
  | _ :: l' => inner_tolerances l'
  end.

(** [L_lambda], once set, is positive. *)
Definition L_positive (st : state) : Prop :=
  match L_lambda st with
  | None => True
  | Some L => 0 < L
  end.

(** The previous loss is still [np.inf] while [L_lambda] is unset. *)
Definition fresh (st : state) : Prop :=
  L_lambda st = None -> g_func_old st = PInf.

(** ** A one-dimensional test bed *)

Module Demo.

(** The Euclidean norm of an array with a single component, which is all
    the runs below feed it. *)
Definition norm1 (v : vec) : Q := fold_right (fun x s => Qabs x + s) 0 v.

(** A solver that returns the right-hand side unchanged (exact for the
    identity operator) together with a given [info]; memory for every
    array. *)
Definition lib (info : pyobj) : scipy :=
  {| cg := fun _ rhs _ _ => Ok (rhs, info);
     norm := norm1;
     zeros := fun _ => Ok tt |}.

(** Oracles with constant answers: inner solution [x], identity Hessian,
    loss 1 with gradient [gx], cross terms [gc] and [hc]. *)
Definition oracles_const (x gx gc : vec) (hc : matrix) : oracles :=
  {| h_sol_approx := fun _ _ _ => Ok x;
     h_hessian := fun _ _ => Ok (fun z => z);
     h_crossed := fun _ _ => Ok hc;
     g_func_grad := fun _ _ => Ok (Fin 1, gx);
     g_cross := fun _ _ => Ok gc |}.

Definition args1 (mode : string) (iters : Z) : args :=
  {| arg_x0 := [0]; bounds := None; lambda0 := [0]; maxcor := 10;
     maxiter := iters; maxls := 20; tolerance_decrease := mode;
     callback := None |}.

(** The same with a bounds argument and a given [maxls]. *)
Definition args2 (b : option (list (option Q * option Q))) (ls : Z) : args :=
  {| arg_x0 := [0]; bounds := b; lambda0 := [0]; maxcor := 10;
     maxiter := 3; maxls := ls; tolerance_decrease := "exponential";
     callback := None |}.

(** Hypergradient [0 - 1 * 1 = -1] in every iteration. *)
Definition O_slope : oracles := oracles_const [1] [1] [0] [[1]].

(** Hypergradient [0 - 0 * 1 = 0] in every iteration. *)
Definition O_flat : oracles := oracles_const [1] [1] [0] [[0]].

(** Two hyperparameters and a cross matrix that is not symmetric. *)
Definition O_square : oracles := oracles_const [1; 0] [1; 0] [0; 0] [[1; 2]; [3; 4]].

Definition st1 (mode : string) : state := init_state (args1 mode 3).

Definition st_square : state :=
  {| x0 := [0; 0]; lambdak := [0; 0]; epsilon_tol := epsilon_tol_init;
     qk := None; L_lambda := None; g_func_old := PInf; old_grads := [] |}.

(** A state in the middle of a run, with [L_lambda] set. *)
Definition st_mid : state :=
  {| x0 := [1]; lambdak := [0]; epsilon_tol := epsilon_tol_init;
     qk := Some [1]; L_lambda := Some 5; g_func_old := Fin 2;
     old_grads := [1] |}.

End Demo.

(** ** Side conditions of an iteration *)

(** The callback, when there is one, returns normally. *)
Definition callback_quiet (a : args) : Prop :=
  forall cb x lam, callback a = Some cb -> cb x lam = Ok tt.

(** The log after the optional call of the callback on [(x, lam)]. *)
Definition after_callback (a : args) (l : log) (x lam : vec) : log :=
  match callback a with
  | None => l
  | Some _ => l ++ [Call_callback x lam]
  end.

(** The iteration goes past the degenerate-gradient check. *)
Definition takes_step (lib : scipy) (st : state) (pr : probe) : Prop :=
  L_lambda st <> None \/ ~ norm lib (p_grad_lambda pr) == 0.

(** The value of [L_lambda] with which line 148 is reached. *)
Definition L_entering (lib : scipy) (st : state) (pr : probe) : Q :=
  match L_lambda st with
  | Some L => L
  | None => 5 * norm lib (p_grad_lambda pr)
  end.

(** The bounds, when given, have one entry per component of [x0]. *)
Definition bounds_fit (a : args) : Prop :=
  match bounds a with
  | None => True
  | Some b => length b = length (arg_x0 a)
  end.

(** The six calls of one iteration, in order. *)
Definition iteration_calls (st : state) (pr : probe) (rhs : vec) : log :=
  [Call_h_sol_approx (x0 st) (lambdak st) (epsilon_tol st);
   Call_h_hessian (p_x0 pr) (lambdak st);
   Call_g_func_grad (p_x0 pr) (lambdak st);
   Call_cg rhs (qk st) (epsilon_tol st);
   Call_g_cross (p_x0 pr) (lambdak st);
   Call_h_crossed (p_x0 pr) (lambdak st)].

(** Splitting a successful monadic computation at its binds. *)
Ltac inv_bind H :=
  let x := fresh "x" in
  let l := fresh "l" in
  let E := fresh "E" in
  unfold bind at 1 in H;
  match type of H with
  | (match ?m with _ => _ end) = _ =>
      destruct m as [[x|?] l] eqn:E; [ | discriminate H]
  end.

Ltac inv_call E :=
  unfold call in E; inversion E; subst; clear E.

(** ** Options the loop does not read *)

(** [a] with other [bounds], [maxcor] and [maxls]. *)
Definition with_options (a : args) (b : option (list (option Q * option Q)))
           (mc ls : Z) : args :=
  {| arg_x0 := arg_x0 a; bounds := b; lambda0 := lambda0 a; maxcor := mc;
     maxiter := maxiter a; maxls := ls;
     tolerance_decrease := tolerance_decrease a; callback := callback a |}.

(** ** The estimator classes *)

(** [KernelRidgeCV] and [KernelRidge] (lines 200-321).  The kernels come
    from sklearn and [np.exp] from numpy; they are parameters.  2-D arrays
    are lists of rows, so the number of columns of an array without rows is
    not represented. *)
Module Estimators.

(** The exceptions of the classes: those of the routine and of numpy, and
    the two that indexing a list and reading an attribute add. *)
Inductive error :=
| Core (e : exn)
| IndexError
| AttributeError.

Inductive outcome (A : Type) :=
| Done (v : A)
| Failed (e : error).
Arguments Done {A} v.
Arguments Failed {A} e.

(** [l[i]] for a list and [i >= 0]. *)
Definition index (l : vec) (i : nat) : outcome Q :=
  match nth_error l i with
  | Some v => Done v
  | None => Failed IndexError
  end.

(** [self.name] for an attribute that may not have been set. *)
Definition attribute {A} (o : option A) : outcome A :=
  match o with
  | Some v => Done v
  | None => Failed AttributeError
  end.

Definition core {A} (r : result A) : outcome A :=
  match r with
  | Ok v => Done v
  | Raise e => Failed (Core e)
  end.

(** [np.exp] and sklearn's [pairwise_kernels(X, Y, gamma=..., metric='rbf')]
    ([Y] optional). *)
Record kernels := {
  np_exp : Q -> Q;
  pairwise_kernels : matrix -> option matrix -> Q -> result matrix
}.

(** [np.eye(n)]. *)
Definition eye (n : nat) : matrix :=
  map (fun i => map (fun j => if (i =? j)%nat then 1 else 0) (seq 0 n)) (seq 0 n).

(** [s * A] for a scalar [s] and a 2-D array. *)
Definition mscale (s : Q) (A : matrix) : matrix := map (scale s) A.

Fixpoint add_rows (A B : matrix) : result matrix :=
  match A, B with
  | r :: A', s :: B' =>
      match broadcast Qplus r s with
      | Ok t =>
          match add_rows A' B' with
          | Ok C => Ok (t :: C)
          | Raise e => Raise e
          end
      | Raise e => Raise e
      end
  | _, _ => Ok []
  end.

(** [A + B] on 2-D arrays under broadcasting. *)
Definition madd (A B : matrix) : result matrix :=
  if (length A =? length B)%nat then add_rows A B
  else if (length B =? 1)%nat then add_rows A (repeat (hd [] B) (length A))
  else if (length A =? 1)%nat then add_rows (repeat (hd [] A) (length B)) B
  else Raise (ValueError "operands could not be broadcast together").

(** What [cg] makes of a dense matrix: the operator [z -> A z]. *)
Definition aslinearoperator (A : matrix) : LinearOperator :=
  {| shape := (length A, length (hd [] A));
     matvec := fun z => map (fun row => inner row z) A |}.

(** The default [tol] of [splinalg.cg]. *)
Definition cg_default_tol : Q := 1e-5.

(** *** [KernelRidge] *)

Record KernelRidge := {
  kr_alpha0 : vec;
  kr_Xt : option matrix;
  dual_coef_ : option vec
}.

(** [KernelRidge(alpha0)]. *)
Definition KernelRidge_init (alpha0 : vec) : KernelRidge :=
  {| kr_alpha0 := alpha0; kr_Xt := None; dual_coef_ := None |}.

(** A method: it returns or raises, and leaves the object behind. *)
Definition method (A : Type) : Type := KernelRidge -> outcome A * KernelRidge.

Definition mret {A} (v : A) : method A := fun self => (Done v, self).

Definition mbind {A B} (m : method A) (k : A -> method B) : method B :=
  fun self =>
    match m self with
    | (Done v, self') => k v self'
    | (Failed e, self') => (Failed e, self')
    end.

Definition pure {A} (o : outcome A) : method A := fun self => (o, self).

Definition read {A} (f : KernelRidge -> A) : method A :=
  fun self => (Done (f self), self).

Definition write (f : KernelRidge -> KernelRidge) : method unit :=
  fun self => (Done tt, f self).

Notation "x <~ m ;; k" := (mbind m (fun x => k))
  (at level 61, m at next level, right associativity).

Section Classes.

Variable lib : scipy.
Variable kern : kernels.

(** [KernelRidge.fit] (lines 302-312). *)
Definition KernelRidge_fit (Xt : matrix) (yt : vec) : method unit :=
  _ <~ write (fun self => {| kr_alpha0 := kr_alpha0 self; kr_Xt := Some Xt;
                             dual_coef_ := dual_coef_ self |}) ;;
  let x0 := repeat 0 (length Xt) in
  alpha <~ read kr_alpha0 ;;
  a0 <~ pure (index alpha 0) ;;
  K <~ pure (core (pairwise_kernels kern Xt None (np_exp kern a0))) ;;
  a1 <~ pure (index alpha 1) ;;
  A <~ pure (core (madd K (mscale (np_exp kern a1) (eye (length x0))))) ;;
  r <~ pure (core (cg lib (aslinearoperator A) yt (Some x0) cg_default_tol)) ;;
  let '(out, success) := r in
  if is_False success then pure (Failed (Core (ValueError "")))
  else write (fun self => {| kr_alpha0 := kr_alpha0 self; kr_Xt := kr_Xt self;
                             dual_coef_ := Some out |}).

(** [KernelRidge.score] (lines 314-321). *)
Definition KernelRidge_score (Xh : matrix) (yh : vec) : method Q :=
  lambdak <~ read kr_alpha0 ;;
  Xt <~ (fun self => (attribute (kr_Xt self), self)) ;;
  a0 <~ pure (index lambdak 0) ;;
  K_pred <~ pure (core (pairwise_kernels kern Xh (Some Xt) (np_exp kern a0))) ;;
  coef <~ (fun self => (attribute (dual_coef_ self), self)) ;;
  pred <~ pure (core (dot K_pred coef)) ;;
  v <~ pure (core (vsub yh pred)) ;;
  mret (inner v v).

End Classes.

(** *** [KernelRidgeCV] *)

Record KernelRidgeCV := {
  cv_tolerance_decrease : string;
  cv_alpha0 : vec;
  cv_max_iter : Z;
  coef_ : option vec;
  alpha_ : option vec
}.

(** The arguments [fit] passes to [_minimize_lbfgsb] (lines 286-290); the
    others keep their defaults. *)
Definition fit_args (self : KernelRidgeCV) (Xt : matrix)
           (cb : option (vec -> vec -> result unit)) : args :=
  {| arg_x0 := repeat 0 (length Xt); bounds := None;
     lambda0 := cv_alpha0 self; maxcor := 10;
     maxiter := cv_max_iter self; maxls := 20;
     tolerance_decrease := cv_tolerance_decrease self; callback := cb |}.

(** [KernelRidgeCV.fit] (lines 208-294).  The five closures it builds from
    the data (lines 218-284) are the parameter [O]. *)
Definition KernelRidgeCV_fit (lib : scipy) (O : oracles) (self : KernelRidgeCV)
           (Xt : matrix) (cb : option (vec -> vec -> result unit))
  : M KernelRidgeCV :=
  opt <- minimize lib O (fit_args self Xt cb) ;;
  let '(x, lam, _) := opt in
  ret {| cv_tolerance_decrease := cv_tolerance_decrease self;
         cv_alpha0 := cv_alpha0 self; cv_max_iter := cv_max_iter self;
         coef_ := Some x; alpha_ := Some lam |}.

End Estimators.

(** ** More of the test bed *)

Module Demo2.

(** Exact solver for one-dimensional systems: [A x = b] with [A = (a)]
    has the solution [b / a], and [a] is what the operator makes of [1]. *)
Definition lib1 (info : pyobj) : scipy :=
  {| cg := fun A rhs _ _ => Ok (map2 Qdiv rhs (matvec A [1]), info);
     norm := Demo.norm1;
     zeros := fun _ => Ok tt |}.

(** Two hyperparameters, of which only the first has a slope.  The arrays
    the norm is applied to have a single non-zero component, where
    [Demo.norm1] is the Euclidean norm. *)
Definition O_wide : oracles :=
  Demo.oracles_const [1; 0] [1; 0] [0; 0] [[1; 0]; [0; 0]].

(** A hypergradient with three components. *)
Definition O_tall : oracles :=
  Demo.oracles_const [1] [1] [0; 0; 0] [[1]; [0]; [0]].

(** A state in the middle of a run with the given hyperparameters and
    stored loss. *)
Definition st_with (lam : vec) (loss : xfloat) : state :=
  {| x0 := [1]; lambdak := lam; epsilon_tol := epsilon_tol_init;
     qk := Some [1]; L_lambda := Some 5; g_func_old := loss;
     old_grads := [1] |}.

(** A hundred unknowns and a negative [maxcor]. *)
Definition args_negative_maxcor : args :=
  {| arg_x0 := repeat 0 100; bounds := None; lambda0 := [0]; maxcor := -5;
     maxiter := 3; maxls := 20; tolerance_decrease := "exponential";
     callback := None |}.

(** Kernels for samples that all coincide, with hyperparameters equal to
    zero: [np.exp] is only needed at 0 and every kernel value is
    [exp 0 = 1]. *)
Definition kern : Estimators.kernels :=
  {| Estimators.np_exp := fun _ => 1;
     Estimators.pairwise_kernels :=
       fun X Y _ =>
         Ok (map (fun _ => map (fun _ => 1)
                               (match Y with Some Y' => Y' | None => X end)) X) |}.

Definition cv (iters : Z) : Estimators.KernelRidgeCV :=
  {| Estimators.cv_tolerance_decrease := "exponential";
     Estimators.cv_alpha0 := [0; 0];
     Estimators.cv_max_iter := iters;
     Estimators.coef_ := None; Estimators.alpha_ := None |}.

End Demo2.

(** Case analysis on every outcome a computation branches on, innermost
    first. *)
Ltac split_outcomes H :=
  cbv beta iota zeta in H;
  repeat (match type of H with
          | context [match ?x with _ => _ end] =>
              lazymatch x with
              | context [match _ with _ => _ end] => fail
              | _ => destruct x
              end
          end; cbv beta iota zeta in H).

Ltac close_growth :=
  eexists; split;
  [ rewrite <- ?app_assoc; reflexivity
  | intros k; destruct k; unfold calls; simpl; lia ].

(** * Lemmas *)

(** ** Arrays *)

Lemma map2_length (f : Q -> Q -> Q) (u v : vec) :
  length u = length v -> length (map2 f u v) = length u.
Proof.
  revert v; induction u as [|x u IH]; intros [|y v] H; simpl in *;
    try discriminate; auto.
Qed.

Lemma scale_length (s : Q) (v : vec) : length (scale s v) = length v.
Proof. apply length_map. Qed.

Lemma vsub_same_shape (u v : vec) :
  length u = length v -> vsub u v = Ok (map2 Qminus u v).
Proof.
  intros H; unfold vsub, broadcast.
  rewrite H, Nat.eqb_refl; reflexivity.
Qed.

Lemma nth_map2 (f : Q -> Q -> Q) (u v : vec) (i : nat) :
  length u = length v -> (i < length u)%nat ->
  nth i (map2 f u v) 0 = f (nth i u 0) (nth i v 0).
Proof.
  revert v i; induction u as [|x u IH]; intros [|y v] [|i] H Hi; simpl in *;
    try discriminate; try lia; auto.
  apply IH; lia.
Qed.

Lemma bigsum_ext (n : nat) (f g : nat -> Q) :
  (forall j, (j < n)%nat -> f j = g j) -> bigsum n f = bigsum n g.
Proof.
  revert f g; induction n as [|n IH]; intros f g H; simpl; auto.
  rewrite (H O) by lia.
  f_equal; apply IH; intros j Hj; apply H; lia.
Qed.

Lemma inner_bigsum (row q : vec) :
  length row = length q ->
  inner row q = bigsum (length q) (fun j => nth j row 0 * nth j q 0).
Proof.
  revert q; induction row as [|x row IH]; intros [|y q] H; simpl in *;
    try discriminate; auto.
  unfold inner in *; simpl; f_equal; apply IH; lia.
Qed.

Lemma dot_aligned (A : matrix) (q : vec) :
  Forall (fun row => length row = length q) A ->
  dot A q = Ok (map (fun row => inner row q) A).
Proof.
  intros H; unfold dot.
  replace (forallb (fun row => (length row =? length q)%nat) A) with true; auto.
  symmetry; apply forallb_forall; intros row Hin.
  rewrite Forall_forall in H; apply Nat.eqb_eq; auto.
Qed.

Lemma py_max_floor (x y : Q) : y <= py_max x y.
Proof.
  unfold py_max; destruct (Qle_bool y x) eqn:E.
  - apply Qle_bool_iff; exact E.
  - apply Qle_refl.
Qed.

Lemma py_max_Qmax (x y : Q) : py_max x y == Qmax x y.
Proof.
  unfold py_max; destruct (Qle_bool y x) eqn:E.
  - apply Qle_bool_iff in E. symmetry; apply Q.max_l; exact E.
  - assert (H : ~ y <= x) by (intros C; apply Qle_bool_iff in C; congruence).
    symmetry; apply Q.max_r. apply Qlt_le_weak, Qnot_le_lt; exact H.
Qed.

Lemma py_range_length (lo hi : Z) : length (py_range lo hi) = Z.to_nat (hi - lo).
Proof. unfold py_range; rewrite length_map, length_seq; reflexivity. Qed.

(** ** The tolerance schedule *)

Lemma power_of_counter_nonzero (it : Z) (n : positive) :
  it <> 0%Z -> Qeq_bool (inject_Z it ^ Zpos n) 0 = false.
Proof.
  intros Hit.
  destruct (Qeq_bool (inject_Z it ^ Zpos n) 0) eqn:E; auto.
  apply Qeq_bool_iff in E.
  exfalso; revert E; simpl; apply Qpower_not_0_positive.
  unfold Qeq, inject_Z; simpl; lia.
Qed.

Lemma decrease_valid (mode : string) (it : Z) (eps : Q) :
  valid_mode mode -> it <> 0%Z ->
  decrease mode it eps =
    Ok (if (mode =? "quadratic")%string then epsilon_tol_init / inject_Z it ^ 2
        else if (mode =? "cubic")%string then epsilon_tol_init / inject_Z it ^ 3
        else if (mode =? "exponential")%string then eps * 0.5
        else 1e-24).
Proof.
  intros Hm Hit; unfold decrease, fdiv.
  rewrite !power_of_counter_nonzero by exact Hit.
  destruct Hm as [-> | [-> | [-> | ->]]]; reflexivity.
Qed.

Lemma decrease_invalid (mode : string) (it : Z) (eps : Q) :
  ~ valid_mode mode -> decrease mode it eps = Raise NotImplementedError.
Proof.
  intros Hm; unfold decrease.
  destruct (String.eqb_spec mode "quadratic") as [->|_];
    [exfalso; apply Hm; unfold valid_mode; auto|].
  destruct (String.eqb_spec mode "cubic") as [->|_];
    [exfalso; apply Hm; unfold valid_mode; auto|].
  destruct (String.eqb_spec mode "exponential") as [->|_];
    [exfalso; apply Hm; unfold valid_mode; auto|].
  destruct (String.eqb_spec mode "exact") as [->|_];
    [exfalso; apply Hm; unfold valid_mode; auto|].
  reflexivity.
Qed.

(** ** The sufficient-decrease test *)

Lemma xle_PInf (loss : xfloat) : xfinite loss -> xle loss PInf = true.
Proof. destruct loss; simpl; intros H; auto; contradiction. Qed.

Lemma decrease_bound_PInf (eps old_eps incr L : Q) :
  decrease_bound PInf eps old_eps incr L = PInf.
Proof. reflexivity. Qed.

Lemma decrease_bound_Fin (prev eps old_eps incr L : Q) :
  decrease_bound (Fin prev) eps old_eps incr L =
  Fin (prev + 1 * eps + old_eps * (1 + 1) * incr + - (L / 2 * incr * incr)).
Proof. reflexivity. Qed.

Section Facts.

Variable lib : scipy.
Variable O : oracles.
Variable a : args.

(** ** One iteration *)

Lemma run_callback_quiet (x lam : vec) (l : log) :
  callback_quiet a -> run_callback a x lam l = (Ok tt, after_callback a l x lam).
Proof.
  intros Hq; unfold run_callback, after_callback.
  destruct (callback a) as [cb|] eqn:E; auto.
  unfold call; rewrite (Hq cb x lam E); reflexivity.
Qed.

Lemma run_callback_log (x lam : vec) (l l' : log) (r : result unit) :
  run_callback a x lam l = (r, l') ->
  forall k, k <> K_callback -> calls k l' = calls k l.
Proof.
  unfold run_callback; destruct (callback a) as [cb|].
  - unfold call; intros H k Hk; inversion H; subst.
    unfold calls; rewrite filter_app, length_app; simpl.
    destruct k; simpl; try lia; congruence.
  - unfold ret; intros H k _; inversion H; subst; reflexivity.
Qed.

(** A successful [assemble] made the six calls and got these answers. *)
Lemma assemble_inv (st : state) (l l1 : log) (pr : probe) :
  assemble lib O st l = (Ok pr, l1) ->
  exists fhs rhs s gc hc hq,
    h_sol_approx O (x0 st) (lambdak st) (epsilon_tol st) = Ok (p_x0 pr) /\
    h_hessian O (p_x0 pr) (lambdak st) = Ok fhs /\
    g_func_grad O (p_x0 pr) (lambdak st) = Ok (p_g_func pr, rhs) /\
    cg lib {| shape := (length (p_x0 pr), length (p_x0 pr));
              matvec := fun z => fhs z |} rhs (qk st) (epsilon_tol st)
      = Ok (p_qk pr, s) /\
    is_False s = false /\
    g_cross O (p_x0 pr) (lambdak st) = Ok gc /\
    h_crossed O (p_x0 pr) (lambdak st) = Ok hc /\
    dot hc (p_qk pr) = Ok hq /\
    vsub gc hq = Ok (p_grad_lambda pr) /\
    l1 = l ++ iteration_calls st pr rhs.
Proof.
  unfold assemble; intros H.
  inv_bind H. inv_call E.
  inv_bind H. inv_call E.
  inv_bind H. destruct x2 as [gf rhs]. inv_call E.
  inv_bind H. destruct x2 as [q1 s]. inv_call E.
  destruct (is_False s) eqn:Es; [discriminate H|].
  inv_bind H. inv_call E.
  inv_bind H. inv_call E.
  inv_bind H. unfold lift in E; inversion E; subst; clear E.
  inv_bind H. unfold lift in E; inversion E; subst; clear E.
  unfold ret in H; inversion H; subst; clear H; simpl.
  exists x1, rhs, s, x2, x3, x4.
  repeat split; auto.
  unfold iteration_calls; simpl.
  rewrite <- !app_assoc; reflexivity.
Qed.

Lemma body_after_assemble (it : Z) (st : state) (l l1 : log) (pr : probe) :
  assemble lib O st l = (Ok pr, l1) ->
  body lib O a it st l = control lib a it st pr l1.
Proof. intros H; unfold body, bind; rewrite H; reflexivity. Qed.

Lemma body_inv (it : Z) (st st' : state) (l l' : log) :
  body lib O a it st l = (Ok st', l') ->
  exists pr l1,
    assemble lib O st l = (Ok pr, l1) /\ control lib a it st pr l1 = (Ok st', l').
Proof.
  unfold body; intros H. inv_bind H. exists x, l0; auto.
Qed.

(** The step, when the shapes agree, the schedule returns and the callback
    is quiet. *)
Lemma step_returns (it : Z) (st : state) (pr : probe) (grads : list Q)
      (L eps1 : Q) (l : log) :
  length (lambdak st) = length (p_grad_lambda pr) ->
  decrease (tolerance_decrease a) it (epsilon_tol st) = Ok eps1 ->
  callback_quiet a ->
  let lam' := map2 Qminus (lambdak st) (scale (1 / L) (p_grad_lambda pr)) in
  let eps' := py_max eps1 exact_epsilon in
  let incr := norm lib (map2 Qminus lam' (lambdak st)) in
  step lib a it st pr grads L l =
    (Ok {| x0 := p_x0 pr; lambdak := lam'; epsilon_tol := eps';
           qk := Some (p_qk pr);
           L_lambda :=
             Some (if xle (p_g_func pr)
                          (decrease_bound (g_func_old st) eps' (epsilon_tol st) incr L)
                   then L * 0.8 else L * 1.2);
           g_func_old := p_g_func pr; old_grads := grads |},
     after_callback a l (p_x0 pr) lam').
Proof.
  intros Hshape Hdec Hcb lam' eps' incr.
  unfold step, bind, lift.
  rewrite vsub_same_shape by (rewrite scale_length; exact Hshape).
  rewrite Hdec.
  rewrite vsub_same_shape
    by (rewrite map2_length; [reflexivity | rewrite scale_length; exact Hshape]).
  rewrite run_callback_quiet by exact Hcb.
  reflexivity.
Qed.

Lemma step_inv (it : Z) (st st' : state) (pr : probe) (grads : list Q)
      (L : Q) (l l' : log) :
  step lib a it st pr grads L l = (Ok st', l') ->
  exists eps1 dl,
    vsub (lambdak st) (scale (1 / L) (p_grad_lambda pr)) = Ok (lambdak st') /\
    decrease (tolerance_decrease a) it (epsilon_tol st) = Ok eps1 /\
    vsub (lambdak st') (lambdak st) = Ok dl /\
    epsilon_tol st' = py_max eps1 exact_epsilon /\
    L_lambda st' =
      Some (if xle (p_g_func pr)
                   (decrease_bound (g_func_old st) (epsilon_tol st')
                                   (epsilon_tol st) (norm lib dl) L)
            then L * 0.8 else L * 1.2) /\
    g_func_old st' = p_g_func pr /\
    old_grads st' = grads /\
    forall k, k <> K_callback -> calls k l' = calls k l.
Proof.
  unfold step; intros H.
  inv_bind H. unfold lift in E; inversion E; subst; clear E.
  inv_bind H. unfold lift in E; inversion E; subst; clear E.
  inv_bind H. unfold lift in E; inversion E; subst; clear E.
  inv_bind H.
  unfold ret in H; inversion H; subst; clear H; simpl.
  exists x1, x2; repeat split; auto.
  intros k Hk; eapply run_callback_log; eauto.
Qed.

Lemma last_recorded (grads : list Q) (g : Q) : last (grads ++ [g]) 0 = g.
Proof. apply last_last. Qed.

Lemma control_takes_step (it : Z) (st : state) (pr : probe) :
  takes_step lib st pr ->
  control lib a it st pr =
  step lib a it st pr (old_grads st ++ [norm lib (p_grad_lambda pr)])
       (L_entering lib st pr).
Proof.
  intros Hs; unfold control, L_entering.
  destruct (L_lambda st) as [L|] eqn:EL; auto.
  rewrite last_recorded.
  destruct (Qeq_bool (norm lib (p_grad_lambda pr)) 0) eqn:E; auto.
  apply Qeq_bool_iff in E.
  destruct Hs as [Hs | Hs]; [congruence | contradiction].
Qed.

Lemma control_skips (it : Z) (st : state) (pr : probe) (l : log) :
  L_lambda st = None ->
  norm lib (p_grad_lambda pr) == 0 ->
  control lib a it st pr l =
    (Ok {| x0 := p_x0 pr; lambdak := lambdak st;
           epsilon_tol := epsilon_tol st * 0.1;
           qk := Some (p_qk pr); L_lambda := None;
           g_func_old := g_func_old st;
           old_grads := old_grads st ++ [norm lib (p_grad_lambda pr)] |}, l).
Proof.
  intros HL Hg; unfold control; rewrite HL, last_recorded.
  apply Qeq_bool_iff in Hg; rewrite Hg; reflexivity.
Qed.

Lemma takes_step_dec (st : state) (pr : probe) :
  takes_step lib st pr \/
  (L_lambda st = None /\ norm lib (p_grad_lambda pr) == 0).
Proof.
  unfold takes_step; destruct (L_lambda st) as [L|].
  - left; left; discriminate.
  - destruct (Qeq_dec (norm lib (p_grad_lambda pr)) 0); auto.
Qed.

End Facts.

(** * The hypergradient *)

Section Hypergradient.

Variable lib : scipy.
Variable O : oracles.
Variable a : args.

(** C1 (as amended).  When the six calls of an iteration return - the
    inner solver [x1], the Krylov solver [q1] with something that is not
    [False], the cross oracles a vector [gc] and a matrix [hc] with one row
    per component of [gc], each row as long as [q1] - the assembly
    succeeds and the hypergradient is [gc - hc q1]: component [i] is
    [gc_i - sum_j hc_ij q1_j], the matrix applied as it was returned, not
    transposed.  The norm of that vector is what the iteration records. *)
Theorem hypergradient_is_cross_outer_minus_cross_inner_times_q
    (st : state) (l : log) (x1 : vec) (fhs : vec -> vec) (gf : xfloat)
    (rhs q1 : vec) (s : pyobj) (gc : vec) (hc : matrix) :
  h_sol_approx O (x0 st) (lambdak st) (epsilon_tol st) = Ok x1 ->
  h_hessian O x1 (lambdak st) = Ok fhs ->
  g_func_grad O x1 (lambdak st) = Ok (gf, rhs) ->
  cg lib {| shape := (length x1, length x1); matvec := fun z => fhs z |}
     rhs (qk st) (epsilon_tol st) = Ok (q1, s) ->
  is_False s = false ->
  g_cross O x1 (lambdak st) = Ok gc ->
  h_crossed O x1 (lambdak st) = Ok hc ->
  Forall (fun row => length row = length q1) hc ->
  length gc = length hc ->
  exists grad l1,
    assemble lib O st l =
      (Ok {| p_x0 := x1; p_g_func := gf; p_qk := q1; p_grad_lambda := grad |}, l1) /\
    direct_formula gc hc q1 grad /\
    forall it st' l', body lib O a it st l = (Ok st', l') ->
      old_grads st' = old_grads st ++ [norm lib grad].
Proof.
  intros Hx Hh Hg Hq Hs Hgc Hhc Hrows Hlen.
  set (hq := map (fun row => inner row q1) hc).
  assert (Hhq : length gc = length hq) by (unfold hq; rewrite length_map; exact Hlen).
  set (grad := map2 Qminus gc hq).
  assert (Hasm : assemble lib O st l =
    (Ok {| p_x0 := x1; p_g_func := gf; p_qk := q1; p_grad_lambda := grad |},
     l ++ iteration_calls st
            {| p_x0 := x1; p_g_func := gf; p_qk := q1; p_grad_lambda := grad |} rhs)).
  { unfold assemble, bind, call, lift, ret, raise.
    rewrite Hx, Hh, Hg, Hq, Hs, Hgc, Hhc.
    rewrite (dot_aligned _ _ Hrows).
    fold hq. rewrite (vsub_same_shape _ _ Hhq). fold grad.
    unfold iteration_calls; simpl. rewrite <- !app_assoc. reflexivity. }
  exists grad, (l ++ iteration_calls st
            {| p_x0 := x1; p_g_func := gf; p_qk := q1; p_grad_lambda := grad |} rhs).
  split; [exact Hasm|]. split.
  - assert (Hgl : length grad = length hc).
    { unfold grad; rewrite map2_length by exact Hhq. exact Hlen. }
    split; [exact Hgl|].
    intros i Hi. unfold grad.
    rewrite nth_map2 by (try exact Hhq; rewrite Hlen, <- Hgl; exact Hi).
    assert (Hi' : (i < length hc)%nat) by (rewrite <- Hgl; exact Hi).
    assert (Hrow : nth i hq 0 =
              bigsum (length q1) (fun j => entry hc i j * nth j q1 0)).
    { unfold hq.
      rewrite (nth_indep (map (fun row => inner row q1) hc) 0 (inner [] q1))
        by (rewrite length_map; exact Hi').
      rewrite (map_nth (fun row => inner row q1) hc [] i).
      apply inner_bigsum.
      rewrite Forall_forall in Hrows. apply Hrows, nth_In, Hi'. }
    rewrite Hrow; reflexivity.
  - intros it st' l' Hb.
    rewrite (body_after_assemble lib O a it _ _ _ _ Hasm) in Hb.
    destruct (takes_step_dec lib st
      {| p_x0 := x1; p_g_func := gf; p_qk := q1; p_grad_lambda := grad |})
      as [Ht | [HL Hz]].
    + rewrite (control_takes_step lib a it _ _ Ht) in Hb.
      apply step_inv in Hb.
      destruct Hb as (e1 & dl & _ & _ & _ & _ & _ & _ & Hog & _). exact Hog.
    + rewrite (control_skips lib a it _ _ _ HL Hz) in Hb.
      inversion Hb; subst; reflexivity.
Qed.

End Hypergradient.

(** * The step controller *)

Section Controller.

Variable lib : scipy.
Variable O : oracles.
Variable a : args.

Lemma nth_scale (s : Q) (v : vec) (i : nat) :
  (i < length v)%nat -> nth i (scale s v) 0 = s * nth i v 0.
Proof.
  intros Hi. unfold scale.
  rewrite (nth_indep (map (fun y => s * y) v) 0 (s * 0))
    by (rewrite length_map; exact Hi).
  apply (map_nth (fun y => s * y)).
Qed.

(** C2.  An iteration entered with [L_lambda = L > 0] whose calls return
    commits the new hyperparameters whatever the test says: they have the
    length of the old ones and component [i] is
    [lam_i - (1/L) grad_i].  The test
    [loss <= prev_loss + C eps' + eps (C+1) incr - (L/2) incr^2], with
    [C = 1], [incr] the norm of the vector of the differences
    [lam'_i - lam_i], [eps'] the decayed tolerance and [eps] the tolerance
    before the decay, only selects the factor of [L]: 0.8 when it holds,
    1.2 when it does not.  For finite losses the test is the inequality
    between rationals. *)
Theorem stepping_iteration_commits_and_tunes_L
    (it : Z) (st : state) (l l1 : log) (pr : probe) (L : Q) :
  assemble lib O st l = (Ok pr, l1) ->
  L_lambda st = Some L ->
  0 < L ->
  length (lambdak st) = length (p_grad_lambda pr) ->
  valid_mode (tolerance_decrease a) ->
  it <> 0%Z ->
  callback_quiet a ->
  exists st' l' dl,
    body lib O a it st l = (Ok st', l') /\
    length (lambdak st') = length (lambdak st) /\
    (forall i, (i < length (lambdak st))%nat ->
       nth i (lambdak st') 0 =
       nth i (lambdak st) 0 - 1 / L * nth i (p_grad_lambda pr) 0) /\
    length dl = length (lambdak st) /\
    (forall i, (i < length (lambdak st))%nat ->
       nth i dl 0 = nth i (lambdak st') 0 - nth i (lambdak st) 0) /\
    let incr := norm lib dl in
    let bound :=
      decrease_bound (g_func_old st) (epsilon_tol st') (epsilon_tol st) incr L in
    (xle (p_g_func pr) bound = true -> L_lambda st' = Some (L * 0.8)) /\
    (xle (p_g_func pr) bound = false -> L_lambda st' = Some (L * 1.2)) /\
    forall loss prev,
      p_g_func pr = Fin loss -> g_func_old st = Fin prev ->
      (xle (p_g_func pr) bound = true <->
       loss <= prev + 1 * epsilon_tol st' + epsilon_tol st * (1 + 1) * incr
               - L / 2 * incr * incr).
Proof.
  intros Hasm HL Hpos Hshape Hmode Hit Hcb.
  pose proof (decrease_valid _ it (epsilon_tol st) Hmode Hit) as Hdec.
  pose proof (step_returns lib a it st pr
                (old_grads st ++ [norm lib (p_grad_lambda pr)]) L _ l1
                Hshape Hdec Hcb) as Hstep.
  cbv zeta in Hstep.
  assert (Hsl : length (lambdak st)
                = length (scale (1 / L) (p_grad_lambda pr)))
    by (rewrite scale_length; exact Hshape).
  assert (Hl' : length (map2 Qminus (lambdak st)
                             (scale (1 / L) (p_grad_lambda pr)))
                = length (lambdak st))
    by (apply map2_length; exact Hsl).
  eexists; eexists;
    exists (map2 Qminus
              (map2 Qminus (lambdak st) (scale (1 / L) (p_grad_lambda pr)))
              (lambdak st)).
  split.
  - rewrite (body_after_assemble lib O a it _ _ _ _ Hasm).
    rewrite control_takes_step by (left; congruence).
    unfold L_entering; rewrite HL. exact Hstep.
  - cbn [lambdak epsilon_tol L_lambda].
    split; [exact Hl'|]. split.
    { intros i Hi. rewrite nth_map2 by assumption.
      rewrite nth_scale by (rewrite <- Hshape; exact Hi). reflexivity. }
    split; [rewrite map2_length; assumption|]. split.
    { intros i Hi. apply nth_map2; [exact Hl' | rewrite Hl'; exact Hi]. }
    cbv zeta.
    split; [intros ->; reflexivity|].
    split; [intros ->; reflexivity|].
    intros loss prev Hloss Hprev. rewrite Hloss, Hprev.
    rewrite decrease_bound_Fin. simpl xle.
    apply Qle_bool_iff.
Qed.

(** C4.  In an iteration that takes the step, the tolerance after the
    decay is the larger of the floor [1e-24] and the value the selected
    mode gives: [1e-24] (exact), [0.5 eps] (exponential), [eps0 / it^2]
    (quadratic) or [eps0 / it^3] (cubic), with [eps0 = 1e-3]. *)
Theorem tolerance_decay_by_mode_then_floor
    (it : Z) (st : state) (l l1 : log) (pr : probe) :
  assemble lib O st l = (Ok pr, l1) ->
  takes_step lib st pr ->
  length (lambdak st) = length (p_grad_lambda pr) ->
  valid_mode (tolerance_decrease a) ->
  it <> 0%Z ->
  callback_quiet a ->
  exists st' l',
    body lib O a it st l = (Ok st', l') /\
    exact_epsilon <= epsilon_tol st' /\
    (tolerance_decrease a = "exact"%string ->
       epsilon_tol st' == Qmax 1e-24 exact_epsilon) /\
    (tolerance_decrease a = "exponential"%string ->
       epsilon_tol st' == Qmax (0.5 * epsilon_tol st) exact_epsilon) /\
    (tolerance_decrease a = "quadratic"%string ->
       epsilon_tol st' ==
       Qmax (epsilon_tol_init / (inject_Z it * inject_Z it)) exact_epsilon) /\
    (tolerance_decrease a = "cubic"%string ->
       epsilon_tol st' ==
       Qmax (epsilon_tol_init / (inject_Z it * inject_Z it * inject_Z it))
            exact_epsilon).
Proof.
  intros Hasm Hstep Hshape Hmode Hit Hcb.
  pose proof (decrease_valid _ it (epsilon_tol st) Hmode Hit) as Hdec.
  pose proof (step_returns lib a it st pr
                (old_grads st ++ [norm lib (p_grad_lambda pr)])
                (L_entering lib st pr) _ l1 Hshape Hdec Hcb) as Hret.
  cbv zeta in Hret.
  eexists; eexists; split.
  - rewrite (body_after_assemble lib O a it _ _ _ _ Hasm).
    rewrite control_takes_step by exact Hstep. exact Hret.
  - simpl. split; [apply py_max_floor|].
    repeat split; intros ->; simpl; rewrite py_max_Qmax;
      apply Q.max_compat; try reflexivity.
    + ring.
    + apply Qdiv_comp; [reflexivity | ring].
Qed.

(** C6.  An iteration entered with [L_lambda] unset - as the first one
    is - whose hypergradient norm is exactly zero returns right after the
    assembly: [L_lambda] stays unset, the tolerance is multiplied by 0.1,
    the hyperparameters and the stored loss are untouched and the callback
    is not called. *)
Theorem degenerate_iteration_shrinks_tolerance_only
    (it : Z) (st : state) (l l1 : log) (pr : probe) :
  assemble lib O st l = (Ok pr, l1) ->
  L_lambda st = None ->
  norm lib (p_grad_lambda pr) == 0 ->
  L_lambda (init_state a) = None /\
  exists st',
    body lib O a it st l = (Ok st', l1) /\
    L_lambda st' = None /\
    epsilon_tol st' = epsilon_tol st * 0.1 /\
    lambdak st' = lambdak st /\
    g_func_old st' = g_func_old st.
Proof.
  intros Hasm HL Hz. split; [reflexivity|].
  eexists; split.
  - rewrite (body_after_assemble lib O a it _ _ _ _ Hasm).
    apply control_skips; assumption.
  - simpl; auto.
Qed.

End Controller.

(** * Invariants of a run *)

Section Run.

Variable lib : scipy.
Variable O : oracles.
Variable a : args.

Lemma loop_invariant (P : state -> Prop) :
  (forall it st l st' l',
      body lib O a it st l = (Ok st', l') -> P st -> P st') ->
  forall its st l st' l',
    loop lib O a its st l = (Ok st', l') -> P st -> P st'.
Proof.
  intros Hbody; induction its as [|it its IH]; simpl; intros st l st' l' H HP.
  - unfold ret in H; inversion H; subst; exact HP.
  - inv_bind H. eapply IH; eauto.
Qed.

Lemma body_L_lambda (it : Z) (st st' : state) (l l' : log) :
  body lib O a it st l = (Ok st', l') ->
  exists pr l1,
    assemble lib O st l = (Ok pr, l1) /\
    ((L_lambda st = None /\ norm lib (p_grad_lambda pr) == 0 /\
      L_lambda st' = None /\ g_func_old st' = g_func_old st) \/
     (takes_step lib st pr /\
      (L_lambda st' = Some (L_entering lib st pr * 0.8) \/
       L_lambda st' = Some (L_entering lib st pr * 1.2)))).
Proof.
  intros H. apply body_inv in H. destruct H as (pr & l1 & Hasm & Hc).
  exists pr, l1; split; [exact Hasm|].
  destruct (takes_step_dec lib st pr) as [Ht | [HL Hz]].
  - right; split; [exact Ht|].
    rewrite (control_takes_step lib a it _ _ Ht) in Hc.
    apply step_inv in Hc.
    destruct Hc as (e1 & dl & _ & _ & _ & _ & HL' & _).
    rewrite HL'.
    match goal with |- context [if ?c then _ else _] => destruct c end; auto.
  - left. rewrite (control_skips lib a it _ _ _ HL Hz) in Hc.
    inversion Hc; subst; simpl; auto.
Qed.

Lemma L_entering_positive (st : state) (pr : probe) :
  (forall v, 0 <= norm lib v) ->
  L_positive st -> takes_step lib st pr -> 0 < L_entering lib st pr.
Proof.
  intros Hnn Hpos Ht; unfold L_entering, L_positive, takes_step in *.
  destruct (L_lambda st) as [L|]; [exact Hpos|].
  destruct Ht as [Ht | Ht]; [congruence|].
  assert (0 < norm lib (p_grad_lambda pr)).
  { destruct (Qlt_le_dec 0 (norm lib (p_grad_lambda pr))) as [Hlt|Hle]; auto.
    exfalso; apply Ht. apply Qle_antisym; [exact Hle | apply Hnn]. }
  lra.
Qed.

Lemma body_L_positive (it : Z) (st st' : state) (l l' : log) :
  (forall v, 0 <= norm lib v) ->
  body lib O a it st l = (Ok st', l') -> L_positive st -> L_positive st'.
Proof.
  intros Hnn H Hpos.
  destruct (body_L_lambda _ _ _ _ _ H) as (pr & l1 & _ & [Hskip | [Ht HL']]).
  - destruct Hskip as (_ & _ & HL' & _); unfold L_positive; rewrite HL'; exact I.
  - pose proof (L_entering_positive st pr Hnn Hpos Ht) as HL.
    unfold L_positive; destruct HL' as [-> | ->]; lra.
Qed.

Lemma body_fresh (it : Z) (st st' : state) (l l' : log) :
  body lib O a it st l = (Ok st', l') -> fresh st -> fresh st'.
Proof.
  intros H Hf.
  destruct (body_L_lambda _ _ _ _ _ H) as (pr & l1 & _ & [Hskip | [Ht HL']]).
  - destruct Hskip as (HL & _ & _ & Hg); intros _; rewrite Hg; apply Hf, HL.
  - intros HN; destruct HL' as [HL' | HL']; congruence.
Qed.

(** C5.  [L_lambda] is unset on entry and stays unset through iterations
    whose hypergradient norm [g] is zero; the first iteration with
    [g <> 0] runs the step with [L_lambda = 5 g]; every iteration that
    steps leaves [L_lambda] multiplied by 0.8 or by 1.2; and, the norm
    being non-negative, [L_lambda] is positive whenever it is set, in every
    state a run goes through. *)
Theorem L_lambda_set_once_then_positive :
  (forall v, 0 <= norm lib v) ->
  L_lambda (init_state a) = None /\
  (forall its st l l',
      loop lib O a its (init_state a) l = (Ok st, l') -> L_positive st) /\
  (forall it st l st' l',
      body lib O a it st l = (Ok st', l') ->
      exists pr l1,
        assemble lib O st l = (Ok pr, l1) /\
        let g := norm lib (p_grad_lambda pr) in
        match L_lambda st with
        | None =>
            (g == 0 -> L_lambda st' = None) /\
            (~ g == 0 ->
               control lib a it st pr =
                 step lib a it st pr (old_grads st ++ [g]) (5 * g) /\
               (L_lambda st' = Some (5 * g * 0.8) \/
                L_lambda st' = Some (5 * g * 1.2)))
        | Some L =>
            L_lambda st' = Some (L * 0.8) \/ L_lambda st' = Some (L * 1.2)
        end).
Proof.
  intros Hnn. split; [reflexivity|]. split.
  - intros its st l l' H.
    refine (loop_invariant L_positive _ its (init_state a) l st l' H I).
    intros; eapply body_L_positive; eauto.
  - intros it st l st' l' H.
    destruct (body_L_lambda _ _ _ _ _ H) as (pr & l1 & Hasm & Hcase).
    exists pr, l1; split; [exact Hasm|]. cbv zeta.
    destruct (L_lambda st) as [L|] eqn:EL.
    + destruct Hcase as [(HN & _) | [_ HL']]; [discriminate|].
      unfold L_entering in HL'; rewrite EL in HL'; exact HL'.
    + split.
      * intros Hz. destruct Hcase as [(_ & _ & HL' & _) | [[Ht|Ht] _]]; auto;
          contradiction.
      * intros Hnz. destruct Hcase as [(_ & Hz & _) | [Ht HL']]; [contradiction|].
        split.
        -- rewrite (control_takes_step lib a it _ _ Ht).
           unfold L_entering; rewrite EL; reflexivity.
        -- unfold L_entering in HL'; rewrite EL in HL'; exact HL'.
Qed.

(** C10.  In a state reached from the entry state with [L_lambda] still
    unset, the stored loss is still [+inf]; so when the iteration has a
    non-zero hypergradient norm [g] and a finite loss, the test holds, and
    the iteration ends with [L_lambda = 5 g 0.8], that is [4 g]. *)
Theorem first_step_passes_the_test
    (its : list Z) (st : state) (l0 l l1 : log) (it : Z) (pr : probe) :
  loop lib O a its (init_state a) l0 = (Ok st, l) ->
  L_lambda st = None ->
  assemble lib O st l = (Ok pr, l1) ->
  ~ norm lib (p_grad_lambda pr) == 0 ->
  xfinite (p_g_func pr) ->
  length (lambdak st) = length (p_grad_lambda pr) ->
  valid_mode (tolerance_decrease a) ->
  it <> 0%Z ->
  callback_quiet a ->
  let g := norm lib (p_grad_lambda pr) in
  exists st' l',
    body lib O a it st l = (Ok st', l') /\
    g_func_old st = PInf /\
    xle (p_g_func pr)
        (decrease_bound (g_func_old st) (epsilon_tol st') (epsilon_tol st)
           (norm lib (map2 Qminus (lambdak st') (lambdak st))) (5 * g)) = true /\
    L_lambda st' = Some (5 * g * 0.8) /\
    5 * g * 0.8 == 4 * g.
Proof.
  intros Hloop HL Hasm Hnz Hfin Hshape Hmode Hit Hcb g.
  assert (Hinf : g_func_old st = PInf).
  { refine (loop_invariant fresh _ its (init_state a) l0 st l Hloop _ HL).
    - intros; eapply body_fresh; eauto.
    - intros _; reflexivity. }
  pose proof (decrease_valid _ it (epsilon_tol st) Hmode Hit) as Hdec.
  pose proof (step_returns lib a it st pr (old_grads st ++ [g]) (5 * g) _ l1
                Hshape Hdec Hcb) as Hret.
  cbv zeta in Hret.
  rewrite Hinf, decrease_bound_PInf, (xle_PInf _ Hfin) in Hret.
  eexists; eexists; split.
  - rewrite (body_after_assemble lib O a it _ _ _ _ Hasm).
    rewrite control_takes_step by (right; exact Hnz).
    unfold L_entering; rewrite HL. exact Hret.
  - simpl. split; [exact Hinf|].
    rewrite Hinf, decrease_bound_PInf.
    split; [apply xle_PInf; exact Hfin|].
    split; [reflexivity | ring].
Qed.

End Run.

(** * Whole runs *)

Section Calls.

Variable lib : scipy.
Variable O : oracles.
Variable a : args.

Lemma calls_app (k : kind) (l1 l2 : log) :
  calls k (l1 ++ l2) = (calls k l1 + calls k l2)%nat.
Proof. unfold calls; rewrite filter_app, length_app; reflexivity. Qed.

Lemma assemble_calls (st : state) (l l1 : log) (pr : probe) (k : kind) :
  assemble lib O st l = (Ok pr, l1) ->
  In k oracle_kinds -> calls k l1 = S (calls k l).
Proof.
  intros H Hk. apply assemble_inv in H.
  destruct H as (fhs & rhs & s & gc & hc & hq & _ & _ & _ & _ & _ & _ & _ & _ & _ & ->).
  rewrite calls_app.
  unfold oracle_kinds in Hk; simpl in Hk.
  destruct Hk as [<- | [<- | [<- | [<- | [<- | [<- | []]]]]]];
    unfold calls; simpl; lia.
Qed.

Lemma control_calls (it : Z) (st st' : state) (pr : probe) (l1 l' : log) (k : kind) :
  control lib a it st pr l1 = (Ok st', l') ->
  k <> K_callback -> calls k l' = calls k l1.
Proof.
  intros H Hk.
  destruct (takes_step_dec lib st pr) as [Ht | [HL Hz]].
  - rewrite (control_takes_step lib a it _ _ Ht) in H.
    apply step_inv in H.
    destruct H as (e1 & dl & _ & _ & _ & _ & _ & _ & _ & Hc). auto.
  - rewrite (control_skips lib a it _ _ _ HL Hz) in H.
    inversion H; subst; reflexivity.
Qed.

Lemma oracle_kind_not_callback (k : kind) : In k oracle_kinds -> k <> K_callback.
Proof.
  unfold oracle_kinds; simpl.
  intros [<- | [<- | [<- | [<- | [<- | [<- | []]]]]]]; discriminate.
Qed.

(** Each iteration that completes makes each of the six calls once. *)
Lemma body_calls (it : Z) (st st' : state) (l l' : log) (k : kind) :
  body lib O a it st l = (Ok st', l') ->
  In k oracle_kinds -> calls k l' = S (calls k l).
Proof.
  intros H Hk. apply body_inv in H. destruct H as (pr & l1 & Hasm & Hc).
  rewrite (control_calls _ _ _ _ _ _ k Hc (oracle_kind_not_callback k Hk)).
  eapply assemble_calls; eauto.
Qed.

Lemma loop_calls (its : list Z) (st st' : state) (l l' : log) (k : kind) :
  loop lib O a its st l = (Ok st', l') ->
  In k oracle_kinds -> calls k l' = (calls k l + length its)%nat.
Proof.
  revert st l; induction its as [|it its IH]; simpl; intros st l H Hk.
  - unfold ret in H; inversion H; subst; lia.
  - inv_bind H. rewrite (IH _ _ H Hk), (body_calls _ _ _ _ _ k E Hk). lia.
Qed.

(** An exception raised by an iteration ends the run there. *)
Lemma loop_raises (it : Z) (rest : list Z) (st : state) (l l' : log) (e : exn) :
  body lib O a it st l = (Raise e, l') ->
  loop lib O a (it :: rest) st l = (Raise e, l').
Proof. intros H; simpl; unfold bind; rewrite H; reflexivity. Qed.

(** C7 (what the code does).  A run that returns has status 0 and has
    made each of the six calls exactly [maxiter - 1] times: the loop ranges
    over [range(1, maxiter)], one iteration short of [maxiter]. *)
Theorem run_makes_maxiter_minus_one_iterations
    (x lam : vec) (status : Z) (l : log) :
  minimize lib O a [] = (Ok (x, lam, status), l) ->
  status = 0%Z /\
  length (py_range 1 (maxiter a)) = Z.to_nat (maxiter a - 1) /\
  forall k, In k oracle_kinds -> calls k l = Z.to_nat (maxiter a - 1).
Proof.
  unfold minimize; intros H.
  destruct (negb _) in H; [discriminate H|].
  destruct (negb _) in H; [discriminate H|].
  destruct (_ <? _)%Z in H; [discriminate H|].
  unfold bind in H.
  destruct (lift (zeros lib (wa_size a)) []) as [[u|?] la] eqn:Ea;
    [|discriminate H].
  unfold lift in Ea; inversion Ea; subst la; clear Ea.
  destruct (run_callback a (arg_x0 a) (lambda0 a) []) as [[u'|?] lb] eqn:Eb;
    [|discriminate H].
  destruct (loop lib O a (py_range 1 (maxiter a)) (init_state a) lb)
    as [[st|?] lc] eqn:Ec; [|discriminate H].
  unfold ret in H; inversion H; subst; clear H.
  split; [reflexivity|]. split; [apply py_range_length|].
  intros k Hk.
  rewrite (loop_calls _ _ _ _ _ k Ec Hk), py_range_length.
  rewrite (run_callback_log a _ _ _ _ _ Eb k (oracle_kind_not_callback k Hk)).
  reflexivity.
Qed.

Lemma bounds_fit_check :
  (length (match bounds a with
           | None => repeat (None, None) (length (arg_x0 a))
           | Some b => b
           end) =? length (arg_x0 a))%nat = true <-> bounds_fit a.
Proof.
  unfold bounds_fit; destruct (bounds a) as [b|].
  - apply Nat.eqb_eq.
  - rewrite repeat_length, Nat.eqb_refl; tauto.
Qed.

End Calls.

(** * Concrete runs *)

Lemma norm1_nonneg (v : vec) : 0 <= Demo.norm1 v.
Proof.
  induction v as [|x v IH]; simpl.
  - apply Qle_refl.
  - pose proof (Qabs_nonneg x). lra.
Qed.

Lemma args1_quiet (mode : string) (iters : Z) :
  callback_quiet (Demo.args1 mode iters).
Proof. intros cb x lam H; discriminate H. Qed.

(** C3 (what the code does).  Exact mode, three as [maxiter], oracles whose
    hypergradient is zero: the first iteration takes the degenerate branch,
    which multiplies the tolerance by 0.1 and applies no floor, so the
    second iteration calls the inner solver with [1e-25], below the floor
    [1e-24]. *)
Theorem floor_is_lost_after_a_degenerate_iteration :
  let run := minimize (Demo.lib (PyInt 0)) Demo.O_flat (Demo.args1 "exact" 3) [] in
  fst run = Ok ([1], [0], 0%Z) /\
  inner_tolerances (snd run) = [exact_epsilon; exact_epsilon * 0.1] /\
  exact_epsilon * 0.1 < exact_epsilon.
Proof.
  cbv zeta. split; [vm_compute; reflexivity|].
  split; [vm_compute; reflexivity|].
  unfold Qlt; vm_compute; reflexivity.
Qed.

(** C8 (what the code does).  What [cg] returns second is an integer, and
    no integer is the object [False]: with [info = 1], tolerance not
    reached, in every solve, the run goes through both iterations and
    returns status 0.  Only the boolean [False] would stop the run, at the
    solve, with nothing called after it. *)
Theorem nonconvergence_does_not_stop_the_run :
  (forall n, is_False (PyInt n) = false) /\
  (let run := minimize (Demo.lib (PyInt 1)) Demo.O_slope
                       (Demo.args1 "exponential" 3) [] in
   (exists x lam, fst run = Ok (x, lam, 0%Z)) /\
   calls K_cg (snd run) = 2%nat /\
   calls K_h_crossed (snd run) = 2%nat) /\
  (let run := minimize (Demo.lib (PyBool false)) Demo.O_slope
                       (Demo.args1 "exponential" 3) [] in
   fst run = Raise (ValueError "") /\
   calls K_cg (snd run) = 1%nat /\
   calls K_g_cross (snd run) = 0%nat).
Proof.
  split; [reflexivity|]. cbv zeta. split.
  - split; [eexists; eexists; vm_compute; reflexivity|].
    split; vm_compute; reflexivity.
  - repeat split; vm_compute; reflexivity.
Qed.

(** ** Instances of the general statements *)

Lemma hypergradient_on_square_oracles :
  exists grad l1,
    assemble (Demo.lib (PyInt 0)) Demo.O_square Demo.st_square [] =
      (Ok {| p_x0 := [1; 0]; p_g_func := Fin 1; p_qk := [1; 0];
             p_grad_lambda := grad |}, l1) /\
    direct_formula [0; 0] [[1; 2]; [3; 4]] [1; 0] grad.
Proof.
  destruct (hypergradient_is_cross_outer_minus_cross_inner_times_q
              (Demo.lib (PyInt 0)) Demo.O_square (Demo.args1 "exponential" 3)
              Demo.st_square [] [1; 0] (fun z => z) (Fin 1) [1; 0] [1; 0]
              (PyInt 0) [0; 0] [[1; 2]; [3; 4]])
    as (grad & l1 & H1 & H2 & _);
    try reflexivity.
  - repeat constructor.
  - exists grad, l1; split; assumption.
Defined.

(** The same run refutes the transposed reading of the formula: the second
    component of the hypergradient is [0 - (3 * 1 + 4 * 0) = -3], while the
    transposed matrix would give [0 - (2 * 1 + 4 * 0) = -2]. *)
Lemma transposed_formula_fails_on_square_oracles :
  exists pr l1,
    assemble (Demo.lib (PyInt 0)) Demo.O_square Demo.st_square [] = (Ok pr, l1) /\
    g_cross Demo.O_square (p_x0 pr) (lambdak Demo.st_square) = Ok [0; 0] /\
    h_crossed Demo.O_square (p_x0 pr) (lambdak Demo.st_square)
      = Ok [[1; 2]; [3; 4]] /\
    ~ transposed_formula [0; 0] [[1; 2]; [3; 4]] (p_qk pr) (p_grad_lambda pr).
Proof.
  eexists; eexists. split; [vm_compute; reflexivity|].
  split; [reflexivity|]. split; [reflexivity|].
  intros H. specialize (H 1%nat (le_n 2)).
  vm_compute in H. discriminate H.
Qed.

Lemma stepping_iteration_on_slope_oracles :
  exists st' l',
    body (Demo.lib (PyInt 0)) Demo.O_slope (Demo.args1 "quadratic" 3) 2
         Demo.st_mid [] = (Ok st', l') /\
    nth 0 (lambdak st') 0 = 0 - 1 / 5 * (0 - (1 * 1 + 0)) /\
    L_lambda st' = Some (5 * 0.8).
Proof.
  destruct (stepping_iteration_commits_and_tunes_L
              (Demo.lib (PyInt 0)) Demo.O_slope (Demo.args1 "quadratic" 3) 2
              Demo.st_mid [] _ _ 5 eq_refl eq_refl)
    as (st' & l' & dl & Hb & _ & Hlam & Hdlen & Hdl & Hup & _).
  - reflexivity.
  - reflexivity.
  - right; left; reflexivity.
  - discriminate.
  - apply args1_quiet.
  - exists st', l'. split; [exact Hb|]. split; [exact (Hlam 0%nat (le_n 1))|].
    apply Hup.
    destruct dl as [|d [|d2 dl]]; try discriminate Hdlen.
    pose proof (Hdl 0%nat (le_n 1)) as Hd. simpl in Hd. subst d.
    clear - Hb. vm_compute in Hb. inversion Hb; subst.
    vm_compute; reflexivity.
Defined.

Lemma tolerance_decay_on_slope_oracles :
  exists st' l',
    body (Demo.lib (PyInt 0)) Demo.O_slope (Demo.args1 "quadratic" 3) 2
         Demo.st_mid [] = (Ok st', l') /\
    exact_epsilon <= epsilon_tol st' /\
    epsilon_tol st' ==
      Qmax (epsilon_tol_init / (inject_Z 2 * inject_Z 2)) exact_epsilon.
Proof.
  destruct (tolerance_decay_by_mode_then_floor
              (Demo.lib (PyInt 0)) Demo.O_slope (Demo.args1 "quadratic" 3) 2
              Demo.st_mid [] _ _ eq_refl)
    as (st' & l' & Hb & Hfloor & _ & _ & Hquad & _).
  - left; discriminate.
  - reflexivity.
  - right; left; reflexivity.
  - discriminate.
  - apply args1_quiet.
  - exists st', l'. split; [exact Hb|]. split; [exact Hfloor|].
    apply Hquad; reflexivity.
Defined.

Lemma L_lambda_positive_on_slope_oracles :
  exists st l,
    loop (Demo.lib (PyInt 0)) Demo.O_slope (Demo.args1 "exponential" 3)
         (py_range 1 3) (init_state (Demo.args1 "exponential" 3)) [] = (Ok st, l) /\
    L_positive st.
Proof.
  eexists; eexists. split; [vm_compute; reflexivity|].
  refine (proj1 (proj2 (L_lambda_set_once_then_positive
                          (Demo.lib (PyInt 0)) Demo.O_slope
                          (Demo.args1 "exponential" 3) norm1_nonneg))
            (py_range 1 3) _ [] _ _).
  vm_compute; reflexivity.
Defined.

Lemma degenerate_iteration_on_flat_oracles :
  exists st' l',
    body (Demo.lib (PyInt 0)) Demo.O_flat (Demo.args1 "exponential" 3) 1
         (init_state (Demo.args1 "exponential" 3)) [] = (Ok st', l') /\
    L_lambda st' = None /\
    epsilon_tol st' = epsilon_tol_init * 0.1 /\
    lambdak st' = [0].
Proof.
  destruct (degenerate_iteration_shrinks_tolerance_only
              (Demo.lib (PyInt 0)) Demo.O_flat (Demo.args1 "exponential" 3) 1
              (init_state (Demo.args1 "exponential" 3)) [] _ _ eq_refl eq_refl)
    as (_ & st' & Hb & HL & He & Hlam & _).
  - unfold Qeq; vm_compute; reflexivity.
  - exists st'; eexists. split; [exact Hb|]. split; [exact HL|].
    split; [exact He | exact Hlam].
Defined.

Lemma two_iterations_for_maxiter_three :
  calls K_h_sol_approx
        (snd (minimize (Demo.lib (PyInt 0)) Demo.O_slope
                       (Demo.args1 "exponential" 3) [])) = 2%nat /\
  calls K_cg
        (snd (minimize (Demo.lib (PyInt 0)) Demo.O_slope
                       (Demo.args1 "exponential" 3) [])) = 2%nat.
Proof.
  pose proof (run_makes_maxiter_minus_one_iterations
                (Demo.lib (PyInt 0)) Demo.O_slope (Demo.args1 "exponential" 3)
                _ _ _ _ eq_refl) as (_ & _ & H).
  split.
  - exact (H K_h_sol_approx (or_introl eq_refl)).
  - exact (H K_cg (or_intror (or_intror (or_intror (or_introl eq_refl))))).
Defined.

(** An unrecognised mode with [maxiter = 1] is an invalid configuration,
    and the run returns normally. *)
Lemma unknown_mode_without_iterations_returns :
  invalid_configuration (Demo.args1 "linear" 1) /\
  minimize (Demo.lib (PyInt 0)) Demo.O_slope (Demo.args1 "linear" 1) [] =
    (Ok ([0], [0], 0%Z), []).
Proof.
  split; [|vm_compute; reflexivity].
  right; right. unfold valid_mode; intros [H | [H | [H | H]]]; discriminate H.
Qed.

Lemma first_step_on_slope_oracles :
  exists st' l',
    body (Demo.lib (PyInt 0)) Demo.O_slope (Demo.args1 "exponential" 3) 1
         (init_state (Demo.args1 "exponential" 3)) [] = (Ok st', l') /\
    L_lambda st' = Some (5 * Demo.norm1 [0 - (1 * 1 + 0)] * 0.8) /\
    5 * Demo.norm1 [0 - (1 * 1 + 0)] * 0.8 == 4 * Demo.norm1 [0 - (1 * 1 + 0)].
Proof.
  destruct (first_step_passes_the_test
              (Demo.lib (PyInt 0)) Demo.O_slope (Demo.args1 "exponential" 3)
              [] (init_state (Demo.args1 "exponential" 3)) [] [] _ 1 _
              eq_refl eq_refl eq_refl)
    as (st' & l' & Hb & _ & _ & HL & H4).
  - unfold Qeq; vm_compute; discriminate.
  - exact I.
  - reflexivity.
  - left; reflexivity.
  - discriminate.
  - apply args1_quiet.
  - exists st', l'. split; [exact Hb|]. split; [exact HL | exact H4].
Defined.

(** * Further properties of the loop *)

Section Iterations.

Variable lib : scipy.
Variable O : oracles.
Variable a : args.

Lemma run_callback_inv (x lam : vec) (l l' : log) (u : unit) :
  run_callback a x lam l = (Ok u, l') -> l' = after_callback a l x lam.
Proof.
  unfold run_callback, after_callback; destruct (callback a) as [cb|].
  - unfold call; intros H; inversion H; reflexivity.
  - unfold ret; intros H; inversion H; reflexivity.
Qed.

Lemma step_carries (it : Z) (st st' : state) (pr : probe) (grads : list Q)
      (L : Q) (l l' : log) :
  step lib a it st pr grads L l = (Ok st', l') ->
  x0 st' = p_x0 pr /\ qk st' = Some (p_qk pr) /\
  L_lambda st' <> None /\ g_func_old st' = p_g_func pr /\
  l' = after_callback a l (x0 st') (lambdak st').
Proof.
  unfold step; intros H.
  inv_bind H. unfold lift in E; inversion E; subst; clear E.
  inv_bind H. unfold lift in E; inversion E; subst; clear E.
  inv_bind H. unfold lift in E; inversion E; subst; clear E.
  inv_bind H. apply run_callback_inv in E.
  unfold ret in H; inversion H; subst; clear H; simpl.
  repeat split; auto; discriminate.
Qed.

(** X1.  An iteration that completes has made exactly the six calls, in
    the order inner solver, Hessian builder, outer loss and gradient,
    Krylov solver, outer cross term, inner cross term, the two solvers with
    the tolerance the iteration started with, and it keeps the [x] and the
    [q] the solvers returned.  A skipped iteration adds nothing else and
    leaves the stored loss alone; one that steps stores the loss the outer
    oracle returned and then calls the callback, if there is one, on the
    new [x] and the new hyperparameters. *)
Theorem iteration_makes_six_calls_in_order
    (it : Z) (st st' : state) (l l' : log) :
  body lib O a it st l = (Ok st', l') ->
  exists x1 fhs loss rhs q1 s,
    h_sol_approx O (x0 st) (lambdak st) (epsilon_tol st) = Ok x1 /\
    h_hessian O x1 (lambdak st) = Ok fhs /\
    g_func_grad O x1 (lambdak st) = Ok (loss, rhs) /\
    cg lib {| shape := (length x1, length x1); matvec := fun z => fhs z |}
       rhs (qk st) (epsilon_tol st) = Ok (q1, s) /\
    x0 st' = x1 /\
    qk st' = Some q1 /\
    let six :=
      [Call_h_sol_approx (x0 st) (lambdak st) (epsilon_tol st);
       Call_h_hessian x1 (lambdak st);
       Call_g_func_grad x1 (lambdak st);
       Call_cg rhs (qk st) (epsilon_tol st);
       Call_g_cross x1 (lambdak st);
       Call_h_crossed x1 (lambdak st)] in
    ((L_lambda st' = None /\ g_func_old st' = g_func_old st /\
      l' = l ++ six) \/
     (L_lambda st' <> None /\ g_func_old st' = loss /\
      l' = after_callback a (l ++ six) x1 (lambdak st'))).
Proof.
  intros H. apply body_inv in H. destruct H as (pr & l1 & Hasm & Hc).
  destruct (assemble_inv lib O _ _ _ _ Hasm)
    as (fhs & rhs & s & gc & hc & hq & Hsol & Hh & Hg & Hcg & _ & _ & _ & _ & _ & Hl1).
  exists (p_x0 pr), fhs, (p_g_func pr), rhs, (p_qk pr), s.
  unfold iteration_calls in Hl1. subst l1.
  split; [exact Hsol|]. split; [exact Hh|]. split; [exact Hg|].
  split; [exact Hcg|].
  destruct (takes_step_dec lib st pr) as [Ht | [HL Hz]].
  - rewrite (control_takes_step lib a it _ _ Ht) in Hc.
    apply step_carries in Hc. destruct Hc as (Hx & Hq & HL & Hgo & Hl).
    split; [exact Hx|]. split; [exact Hq|]. cbv zeta. right.
    rewrite Hx in Hl. repeat split; assumption.
  - rewrite (control_skips lib a it _ _ _ HL Hz) in Hc.
    inversion Hc; subst; simpl.
    split; [reflexivity|]. split; [reflexivity|]. left.
    repeat split; reflexivity.
Qed.

(** X2.  Warm start.  Whether the first of two consecutive iterations
    stepped or was skipped, the second calls the inner solver on the [x]
    the first one got from it, and calls [cg] with the [q] the first one
    got as initial guess, both with the tolerance left by the first. *)
Theorem solvers_are_warm_started
    (it it' : Z) (st st1 st2 : state) (l l1 l2 : log) :
  body lib O a it st l = (Ok st1, l1) ->
  body lib O a it' st1 l1 = (Ok st2, l2) ->
  exists x1 q1 s1 fhs1 rhs1 x2 q2 s2 fhs2 rhs2,
    h_sol_approx O (x0 st) (lambdak st) (epsilon_tol st) = Ok x1 /\
    cg lib {| shape := (length x1, length x1); matvec := fun z => fhs1 z |}
       rhs1 (qk st) (epsilon_tol st) = Ok (q1, s1) /\
    h_sol_approx O x1 (lambdak st1) (epsilon_tol st1) = Ok x2 /\
    cg lib {| shape := (length x2, length x2); matvec := fun z => fhs2 z |}
       rhs2 (Some q1) (epsilon_tol st1) = Ok (q2, s2).
Proof.
  intros H1 H2.
  apply body_inv in H1. destruct H1 as (pr1 & m1 & Hasm1 & Hc1).
  apply body_inv in H2. destruct H2 as (pr2 & m2 & Hasm2 & _).
  destruct (assemble_inv lib O _ _ _ _ Hasm1)
    as (fhs1 & rhs1 & s1 & _ & _ & _ & Hs1 & _ & _ & Hcg1 & _).
  destruct (assemble_inv lib O _ _ _ _ Hasm2)
    as (fhs2 & rhs2 & s2 & _ & _ & _ & Hs2 & _ & _ & Hcg2 & _).
  assert (Hx1 : x0 st1 = p_x0 pr1 /\ qk st1 = Some (p_qk pr1)).
  { destruct (takes_step_dec lib st pr1) as [Ht | [HL Hz]].
    - rewrite (control_takes_step lib a it _ _ Ht) in Hc1.
      apply step_carries in Hc1. tauto.
    - rewrite (control_skips lib a it _ _ _ HL Hz) in Hc1.
      inversion Hc1; subst; simpl; auto. }
  destruct Hx1 as (Hx1 & Hq1). rewrite Hx1 in Hs2. rewrite Hq1 in Hcg2.
  exists (p_x0 pr1), (p_qk pr1), s1, fhs1, rhs1, (p_x0 pr2), (p_qk pr2), s2, fhs2, rhs2.
  auto.
Qed.

End Iterations.

Section Runs.

Variable lib : scipy.
Variable O : oracles.
Variable a : args.

Lemma loop_app (pre post : list Z) (st : state) (l : log) :
  loop lib O a (pre ++ post) st l =
  bind (loop lib O a pre st) (fun st' => loop lib O a post st') l.
Proof.
  revert st l; induction pre as [|it pre IH]; intros st l; simpl.
  - reflexivity.
  - unfold bind. destruct (body lib O a it st l) as [[st1|e] l1].
    + rewrite IH; reflexivity.
    + reflexivity.
Qed.

Lemma iteration_calls_no_callback (st : state) (pr : probe) (rhs : vec) :
  calls K_callback (iteration_calls st pr rhs) = 0%nat.
Proof. reflexivity. Qed.

Lemma tenth_power_succ (n : nat) :
  0.1 ^ Z.of_nat (S n) == 0.1 * 0.1 ^ Z.of_nat n.
Proof.
  rewrite Nat2Z.inj_succ. unfold Z.succ.
  rewrite Z.add_comm, Qpower_plus by discriminate.
  reflexivity.
Qed.

(** From a state with [L_lambda] unset to a later state with [L_lambda]
    still unset, every iteration in between was skipped. *)
Lemma loop_while_unset (its : list Z) (st0 st : state) (l l' : log) :
  loop lib O a its st0 l = (Ok st, l') ->
  L_lambda st = None ->
  L_lambda st0 = None /\
  lambdak st = lambdak st0 /\
  g_func_old st = g_func_old st0 /\
  epsilon_tol st == epsilon_tol st0 * 0.1 ^ Z.of_nat (length its) /\
  calls K_callback l' = calls K_callback l /\
  exists zs, old_grads st = old_grads st0 ++ zs /\
             length zs = length its /\ Forall (fun g => g == 0) zs.
Proof.
  revert st0 l; induction its as [|it its IH]; intros st0 l H HN.
  - simpl in H; unfold ret in H; inversion H; subst.
    repeat split; auto.
    + simpl. ring.
    + exists []; rewrite app_nil_r; auto.
  - simpl in H. inv_bind H.
    destruct (IH _ _ H HN) as (HN1 & Hlam & Hg & He & Hcb & zs & Hzs & Hlen & Hall).
    apply body_inv in E. destruct E as (pr & l1 & Hasm & Hc).
    destruct (takes_step_dec lib st0 pr) as [Ht | [HL Hz]].
    + rewrite (control_takes_step lib a it _ _ Ht) in Hc.
      apply step_carries in Hc. exfalso; tauto.
    + rewrite (control_skips lib a it _ _ _ HL Hz) in Hc.
      inversion Hc; subst x l0; clear Hc.
      cbn [lambdak g_func_old epsilon_tol old_grads] in *.
      destruct (assemble_inv lib O _ _ _ _ Hasm)
        as (fhs & rhs & s & gc & hc & hq & _ & _ & _ & _ & _ & _ & _ & _ & _ & Hl1).
      change (length (it :: its)) with (S (length its)).
      repeat split; auto.
      * rewrite He, tenth_power_succ. ring.
      * rewrite Hcb, Hl1, calls_app, iteration_calls_no_callback. lia.
      * exists (norm lib (p_grad_lambda pr) :: zs).
        rewrite Hzs, <- app_assoc.
        repeat split; auto. simpl; lia.
Qed.

Lemma body_records_one_norm (it : Z) (st st' : state) (l l' : log) :
  body lib O a it st l = (Ok st', l') ->
  length (old_grads st') = S (length (old_grads st)).
Proof.
  intros H. apply body_inv in H. destruct H as (pr & l1 & Hasm & Hc).
  destruct (takes_step_dec lib st pr) as [Ht | [HL Hz]].
  - rewrite (control_takes_step lib a it _ _ Ht) in Hc.
    apply step_inv in Hc.
    destruct Hc as (e1 & dl & _ & _ & _ & _ & _ & _ & Hog & _).
    rewrite Hog, length_app; simpl; lia.
  - rewrite (control_skips lib a it _ _ _ HL Hz) in Hc.
    inversion Hc; subst; simpl. rewrite length_app; simpl; lia.
Qed.

Lemma loop_records_norms (its : list Z) (st0 st : state) (l l' : log) :
  loop lib O a its st0 l = (Ok st, l') ->
  length (old_grads st) = (length (old_grads st0) + length its)%nat.
Proof.
  revert st0 l; induction its as [|it its IH]; intros st0 l H; simpl in H.
  - unfold ret in H; inversion H; subst; simpl; lia.
  - inv_bind H. rewrite (IH _ _ H), (body_records_one_norm _ _ _ _ _ E).
    simpl; lia.
Qed.

(** X3.  A run records one norm per iteration it completes, skipped ones
    included.  As long as [L_lambda] is unset, all the norms recorded are
    zero, the hyperparameters are still [lambda0], the stored loss is still
    [+inf], the callback has not been called again, and after [n]
    iterations the tolerance is its initial value times [0.1^n]. *)
Theorem before_the_first_step_nothing_moves
    (its : list Z) (st : state) (l l' : log) :
  loop lib O a its (init_state a) l = (Ok st, l') ->
  length (old_grads st) = length its /\
  (L_lambda st = None ->
     lambdak st = lambda0 a /\
     g_func_old st = PInf /\
     epsilon_tol st ==
       epsilon_tol (init_state a) * 0.1 ^ Z.of_nat (length its) /\
     calls K_callback l' = calls K_callback l /\
     Forall (fun g => g == 0) (old_grads st)).
Proof.
  intros H. split.
  - rewrite (loop_records_norms _ _ _ _ _ H); reflexivity.
  - intros HN.
    destruct (loop_while_unset _ _ _ _ _ H HN)
      as (_ & Hlam & Hg & He & Hcb & zs & Hzs & _ & Hall).
    repeat split; auto.
    rewrite Hzs; exact Hall.
Qed.

(** ** The range of the tolerance *)

Lemma div_by_integer (q : Q) :
  Qden q = 1%positive -> Qeq_bool q 0 = false -> epsilon_tol_init / q <= epsilon_tol_init.
Proof.
  destruct q as [z d]; simpl; intros -> Hz.
  destruct z as [|p|p].
  - discriminate Hz.
  - unfold Qle, Qdiv, Qmult, Qinv; simpl. lia.
  - unfold Qle, Qdiv, Qmult, Qinv; simpl. lia.
Qed.

Lemma decrease_upper (mode : string) (it : Z) (eps e1 : Q) :
  decrease mode it eps = Ok e1 ->
  0 < eps -> eps <= epsilon_tol_init -> e1 <= epsilon_tol_init.
Proof.
  unfold decrease, fdiv; intros H Hpos Hle.
  destruct (mode =? "quadratic")%string.
  { destruct (Qeq_bool (inject_Z it ^ 2) 0) eqn:E; inversion H; subst.
    apply div_by_integer; [reflexivity | exact E]. }
  destruct (mode =? "cubic")%string.
  { destruct (Qeq_bool (inject_Z it ^ 3) 0) eqn:E; inversion H; subst.
    apply div_by_integer; [reflexivity | exact E]. }
  destruct (mode =? "exponential")%string.
  { inversion H; subst. lra. }
  destruct (mode =? "exact")%string; inversion H; subst.
  unfold Qle; vm_compute; discriminate.
Qed.

Lemma body_tolerance_range (it : Z) (st st' : state) (l l' : log) :
  body lib O a it st l = (Ok st', l') ->
  0 < epsilon_tol st /\ epsilon_tol st <= epsilon_tol_init ->
  0 < epsilon_tol st' /\ epsilon_tol st' <= epsilon_tol_init.
Proof.
  intros H [Hpos Hle].
  apply body_inv in H. destruct H as (pr & l1 & Hasm & Hc).
  destruct (takes_step_dec lib st pr) as [Ht | [HL Hz]].
  - rewrite (control_takes_step lib a it _ _ Ht) in Hc.
    apply step_inv in Hc.
    destruct Hc as (e1 & dl & _ & Hdec & _ & He & _).
    rewrite He. split.
    + apply Qlt_le_trans with exact_epsilon; [reflexivity | apply py_max_floor].
    + unfold py_max. destruct (Qle_bool exact_epsilon e1).
      * eapply decrease_upper; eauto.
      * unfold Qle; vm_compute; discriminate.
  - rewrite (control_skips lib a it _ _ _ HL Hz) in Hc.
    inversion Hc; subst; simpl. split; lra.
Qed.

(** X4.  In every state a run goes through, in all four modes and
    through skipped iterations, the inner tolerance is never negative and
    never above its initial value [1e-3]: no schedule raises the tolerance
    over the one the run started from. *)
Theorem tolerance_stays_within_its_initial_value
    (its : list Z) (st : state) (l l' : log) :
  loop lib O a its (init_state a) l = (Ok st, l') ->
  0 <= epsilon_tol st /\ epsilon_tol st <= epsilon_tol_init.
Proof.
  intros H.
  assert (Hr : 0 < epsilon_tol st /\ epsilon_tol st <= epsilon_tol_init).
  { refine (loop_invariant lib O a
              (fun s => 0 < epsilon_tol s /\ epsilon_tol s <= epsilon_tol_init)
              _ its (init_state a) l st l' H _).
    - intros; eapply body_tolerance_range; eauto.
    - unfold init_state; simpl.
      destruct (tolerance_decrease a =? "exact")%string; split;
        unfold Qlt, Qle; vm_compute; congruence. }
  destruct Hr as [Hpos Hle]. split; [apply Qlt_le_weak; exact Hpos | exact Hle].
Qed.

End Runs.

(** * Exceptions and edge cases of the loop *)

Section Edges.

Variable lib : scipy.
Variable O : oracles.
Variable a : args.

(** Whatever its outcome, an iteration extends the log by at most one call
    of each kind. *)
Lemma assemble_log_growth (st : state) (l l' : log) (r : result probe) :
  assemble lib O st l = (r, l') ->
  exists evs, l' = l ++ evs /\ forall k, (calls k evs <= 1)%nat.
Proof.
  unfold assemble, bind, call, lift, ret, raise; intros H.
  split_outcomes H; inversion H; subst; clear H; close_growth.
Qed.

Lemma control_log_growth (it : Z) (st : state) (pr : probe) (l l' : log)
      (r : result state) :
  control lib a it st pr l = (r, l') ->
  l' = l \/ exists x lam, l' = l ++ [Call_callback x lam].
Proof.
  unfold control, step, run_callback, bind, call, lift, ret; intros H.
  split_outcomes H; inversion H; subst; clear H;
    try (left; reflexivity); right; eexists; eexists; reflexivity.
Qed.

Lemma body_log_growth (it : Z) (st : state) (l l' : log) (r : result state) :
  body lib O a it st l = (r, l') ->
  exists evs, l' = l ++ evs /\ forall k, (calls k evs <= 1)%nat.
Proof.
  unfold body, bind; intros H.
  destruct (assemble lib O st l) as [[pr|e] l1] eqn:E.
  - destruct (assemble_log_growth _ _ _ _ E) as (evs & -> & Hk).
    destruct (assemble_inv lib O _ _ _ _ E)
      as (fhs & rhs & s & gc & hc & hq & _ & _ & _ & _ & _ & _ & _ & _ & _ & Hl).
    apply app_inv_head in Hl; subst evs.
    destruct (control_log_growth _ _ _ _ _ _ H) as [-> | (x & lam & ->)].
    + exists (iteration_calls st pr rhs); auto.
    + exists (iteration_calls st pr rhs ++ [Call_callback x lam]).
      split; [rewrite app_assoc; reflexivity|].
      intros k; destruct k; unfold calls; simpl; lia.
  - inversion H; subst. eapply assemble_log_growth; eauto.
Qed.

(** X5.  An exception raised in an iteration - by an oracle, by [cg], by
    the callback or by the loop itself - is the outcome of the run: the
    iterations listed after it do not run, and since the start of the
    failing iteration the log has gained at most one call of each kind. *)
Theorem exception_in_an_iteration_ends_the_run
    (pre rest : list Z) (it : Z) (st0 st : state) (l0 l l' : log) (e : exn) :
  loop lib O a pre st0 l0 = (Ok st, l) ->
  body lib O a it st l = (Raise e, l') ->
  loop lib O a (pre ++ it :: rest) st0 l0 = (Raise e, l') /\
  exists evs, l' = l ++ evs /\ forall k, (calls k evs <= 1)%nat.
Proof.
  intros Hpre Hb. split.
  - rewrite loop_app. unfold bind at 1. rewrite Hpre.
    simpl. unfold bind. rewrite Hb. reflexivity.
  - eapply body_log_growth; eauto.
Qed.

(** X6.  [bounds], [maxcor] and [maxls] are only validated, and [maxcor]
    sizes an array that nothing reads: two calls that differ in nothing
    else, both past the three checks (bounds of the length of [x0],
    positive [maxls], non-negative work-array size) and both with their
    work array allocated, have the same outcome and make the same calls. *)
Theorem bounds_maxcor_maxls_are_only_validated
    (b : option (list (option Q * option Q))) (mc ls : Z) (l : log) :
  bounds_fit a -> bounds_fit (with_options a b mc ls) ->
  (0 < maxls a)%Z -> (0 < ls)%Z ->
  (0 <= wa_size a)%Z -> (0 <= wa_size (with_options a b mc ls))%Z ->
  zeros lib (wa_size a) = Ok tt ->
  zeros lib (wa_size (with_options a b mc ls)) = Ok tt ->
  minimize lib O (with_options a b mc ls) l = minimize lib O a l.
Proof.
  intros Hb Hb' Hls Hls' Hwa Hwa' Hz Hz'.
  unfold minimize.
  apply bounds_fit_check in Hb. apply bounds_fit_check in Hb'.
  rewrite Hb, Hb'.
  replace (0 <? maxls (with_options a b mc ls))%Z with true
    by (symmetry; apply Z.ltb_lt; exact Hls').
  replace (0 <? maxls a)%Z with true by (symmetry; apply Z.ltb_lt; exact Hls).
  replace (wa_size (with_options a b mc ls) <? 0)%Z with false
    by (symmetry; apply Z.ltb_ge; exact Hwa').
  replace (wa_size a <? 0)%Z with false by (symmetry; apply Z.ltb_ge; exact Hwa).
  cbn [negb]. unfold bind at 1 4, lift. rewrite Hz, Hz'.
  reflexivity.
Qed.

(** X7.  The work array [wa] has a non-negative size as soon as [maxcor]
    is non-negative.  When the size is negative (a negative [maxcor] with
    [x0] long enough) the call raises [ValueError] at the allocation,
    after the two other checks, with nothing called. *)
Theorem work_array_allocation :
  ((0 <= maxcor a)%Z -> (0 <= wa_size a)%Z) /\
  (forall l, bounds_fit a -> (0 < maxls a)%Z -> (wa_size a < 0)%Z ->
     minimize lib O a l =
       (Raise (ValueError "negative dimensions are not allowed"), l)).
Proof.
  split.
  - unfold wa_size; intros Hm.
    pose proof (Nat2Z.is_nonneg (length (arg_x0 a))). nia.
  - intros l Hb Hls Hwa. unfold minimize.
    apply bounds_fit_check in Hb. rewrite Hb.
    replace (0 <? maxls a)%Z with true by (symmetry; apply Z.ltb_lt; exact Hls).
    replace (wa_size a <? 0)%Z with true by (symmetry; apply Z.ltb_lt; exact Hwa).
    reflexivity.
Qed.

End Edges.

Section Steps.

Variable lib : scipy.
Variable O : oracles.
Variable a : args.

Lemma xle_NaN_l (x : xfloat) : xle NaN x = false.
Proof. destruct x; reflexivity. Qed.

Lemma xle_NaN_r (x : xfloat) : xle x NaN = false.
Proof. destruct x; reflexivity. Qed.

Lemma decrease_bound_NaN (eps old_eps incr L : Q) :
  decrease_bound NaN eps old_eps incr L = NaN.
Proof. reflexivity. Qed.

(** X8.  A NaN never stops the loop: in an iteration that takes the step,
    if the loss returned is NaN, or the stored loss is, the test fails, so
    [L_lambda] is multiplied by 1.2; the hyperparameters are updated all
    the same and the loss returned, NaN or not, becomes the stored one. *)
Theorem nan_loss_fails_the_test
    (it : Z) (st : state) (l l1 : log) (pr : probe) :
  assemble lib O st l = (Ok pr, l1) ->
  takes_step lib st pr ->
  length (lambdak st) = length (p_grad_lambda pr) ->
  valid_mode (tolerance_decrease a) ->
  it <> 0%Z ->
  callback_quiet a ->
  p_g_func pr = NaN \/ g_func_old st = NaN ->
  exists st' l',
    body lib O a it st l = (Ok st', l') /\
    L_lambda st' = Some (L_entering lib st pr * 1.2) /\
    lambdak st' =
      map2 Qminus (lambdak st)
           (scale (1 / L_entering lib st pr) (p_grad_lambda pr)) /\
    g_func_old st' = p_g_func pr.
Proof.
  intros Hasm Ht Hshape Hmode Hit Hcb Hnan.
  pose proof (decrease_valid _ it (epsilon_tol st) Hmode Hit) as Hdec.
  pose proof (step_returns lib a it st pr
                (old_grads st ++ [norm lib (p_grad_lambda pr)])
                (L_entering lib st pr) _ l1 Hshape Hdec Hcb) as Hret.
  cbv zeta in Hret.
  eexists; eexists; split.
  - rewrite (body_after_assemble lib O a it _ _ _ _ Hasm).
    rewrite control_takes_step by exact Ht. exact Hret.
  - simpl. repeat split.
    destruct Hnan as [-> | ->].
    + rewrite xle_NaN_l; reflexivity.
    + rewrite decrease_bound_NaN, xle_NaN_r; reflexivity.
Qed.

Lemma vsub_scalar_left (c : Q) (v : vec) :
  vsub [c] v = Ok (map (fun y => c - y) v).
Proof.
  unfold vsub, broadcast. destruct v as [|y [|z v]]; reflexivity.
Qed.

Lemma vsub_scalar_right (c : Q) (v : vec) :
  exists d, vsub v [c] = Ok d.
Proof.
  unfold vsub, broadcast.
  destruct (length v =? length [c])%nat; simpl; eauto.
Qed.

(** X9.  Hyperparameters given as a single number are broadcast: from
    [lambdak = [c]] an iteration that takes the step with a hypergradient
    of any length returns, and the new hyperparameters have one component
    [c - (1/L) g] for each component [g] of the hypergradient. *)
Theorem single_hyperparameter_is_broadcast
    (it : Z) (st : state) (l l1 : log) (pr : probe) (c : Q) :
  assemble lib O st l = (Ok pr, l1) ->
  takes_step lib st pr ->
  lambdak st = [c] ->
  valid_mode (tolerance_decrease a) ->
  it <> 0%Z ->
  callback_quiet a ->
  exists st' l',
    body lib O a it st l = (Ok st', l') /\
    lambdak st' =
      map (fun g => c - 1 / L_entering lib st pr * g) (p_grad_lambda pr).
Proof.
  intros Hasm Ht Hlam Hmode Hit Hcb.
  rewrite (body_after_assemble lib O a it _ _ _ _ Hasm).
  rewrite control_takes_step by exact Ht.
  unfold step, bind, lift.
  rewrite Hlam, vsub_scalar_left.
  rewrite (decrease_valid _ it (epsilon_tol st) Hmode Hit).
  destruct (vsub_scalar_right c
              (map (fun y => c - y)
                   (scale (1 / L_entering lib st pr) (p_grad_lambda pr))))
    as (d & Hd).
  rewrite Hd, run_callback_quiet by exact Hcb.
  eexists; eexists; split; [reflexivity|].
  simpl. unfold scale. rewrite map_map. reflexivity.
Qed.

Lemma vsub_mismatch (u v : vec) :
  length u <> length v -> length u <> 1%nat -> length v <> 1%nat ->
  vsub u v = Raise (ValueError "operands could not be broadcast together").
Proof.
  intros H Hu Hv; unfold vsub, broadcast.
  apply Nat.eqb_neq in H, Hu, Hv. rewrite H, Hu, Hv. reflexivity.
Qed.

(** X10.  When the hyperparameters and the hypergradient have different
    lengths, neither of them 1, an iteration that reaches the step raises
    [ValueError] at the update of the hyperparameters: after the six calls,
    before the schedule is consulted (so whatever the mode) and before the
    callback. *)
Theorem shape_mismatch_raises_at_the_update
    (it : Z) (st : state) (l l1 : log) (pr : probe) :
  assemble lib O st l = (Ok pr, l1) ->
  takes_step lib st pr ->
  length (lambdak st) <> length (p_grad_lambda pr) ->
  length (lambdak st) <> 1%nat ->
  length (p_grad_lambda pr) <> 1%nat ->
  body lib O a it st l =
    (Raise (ValueError "operands could not be broadcast together"), l1).
Proof.
  intros Hasm Ht Hne H1 H2.
  rewrite (body_after_assemble lib O a it _ _ _ _ Hasm).
  rewrite control_takes_step by exact Ht.
  unfold step, bind, lift.
  rewrite vsub_mismatch by (rewrite ?scale_length; assumption).
  reflexivity.
Qed.

Lemma inner_self_nonneg (g : vec) : 0 <= inner g g.
Proof.
  unfold inner; induction g as [|x g IH]; simpl.
  - apply Qle_refl.
  - pose proof (Qsqr_nonneg x) as Hx. simpl in Hx.
    apply Qle_trans with (0 + 0); [apply Qle_refl|].
    apply Qplus_le_compat; [exact Hx | exact IH].
Qed.

Lemma inner_of_step (s : Q) (u g : vec) :
  length u = length g ->
  inner (map2 Qminus (map2 Qminus u (scale s g)) u) g == - (s * inner g g).
Proof.
  unfold inner; revert g; induction u as [|x u IH]; intros [|y g] H;
    simpl in *; try discriminate.
  - ring.
  - rewrite IH by lia. ring.
Qed.

(** X11.  Every step is a descent step for the linearised loss: with
    [L_lambda = L > 0] on entry to the step, the displacement of the
    hyperparameters has inner product [-(1/L) <grad, grad>] with the
    hypergradient, which is never positive. *)
Theorem step_is_against_the_hypergradient
    (it : Z) (st : state) (l l1 : log) (pr : probe) :
  assemble lib O st l = (Ok pr, l1) ->
  takes_step lib st pr ->
  0 < L_entering lib st pr ->
  length (lambdak st) = length (p_grad_lambda pr) ->
  valid_mode (tolerance_decrease a) ->
  it <> 0%Z ->
  callback_quiet a ->
  exists st' l',
    body lib O a it st l = (Ok st', l') /\
    let move := map2 Qminus (lambdak st') (lambdak st) in
    inner move (p_grad_lambda pr) ==
      - (1 / L_entering lib st pr
         * inner (p_grad_lambda pr) (p_grad_lambda pr)) /\
    inner move (p_grad_lambda pr) <= 0.
Proof.
  intros Hasm Ht HL Hshape Hmode Hit Hcb.
  pose proof (decrease_valid _ it (epsilon_tol st) Hmode Hit) as Hdec.
  pose proof (step_returns lib a it st pr
                (old_grads st ++ [norm lib (p_grad_lambda pr)])
                (L_entering lib st pr) _ l1 Hshape Hdec Hcb) as Hret.
  cbv zeta in Hret.
  eexists; eexists; split.
  - rewrite (body_after_assemble lib O a it _ _ _ _ Hasm).
    rewrite control_takes_step by exact Ht. exact Hret.
  - simpl.
    pose proof (inner_of_step (1 / L_entering lib st pr) _ _ Hshape) as Hin.
    split; [exact Hin|].
    rewrite Hin.
    pose proof (inner_self_nonneg (p_grad_lambda pr)) as Hnn.
    assert (Hinv : 0 < 1 / L_entering lib st pr).
    { unfold Qdiv. rewrite Qmult_1_l. apply Qinv_lt_0_compat; exact HL. }
    assert (0 <= 1 / L_entering lib st pr
                 * inner (p_grad_lambda pr) (p_grad_lambda pr)).
    { apply Qmult_le_0_compat; [apply Qlt_le_weak; exact Hinv | exact Hnn]. }
    lra.
Qed.

End Steps.

(** * Invalid configurations *)

Section Invalid.

Variable lib : scipy.
Variable O : oracles.
Variable a : args.

Lemma vsub_broadcasts (u v : vec) :
  length u = length v \/ length u = 1%nat \/ length v = 1%nat ->
  exists w, vsub u v = Ok w.
Proof.
  intros H. unfold vsub, broadcast.
  destruct (length u =? length v)%nat eqn:E; [eauto|].
  destruct (length v =? 1)%nat eqn:Ev; [eauto|].
  destruct (length u =? 1)%nat eqn:Eu; [eauto|].
  apply Nat.eqb_neq in E, Ev, Eu. exfalso.
  destruct H as [H | [H | H]]; contradiction.
Qed.

(** With an unrecognised mode the step never returns. *)
Lemma step_unknown_mode (it : Z) (st st' : state) (pr : probe)
      (grads : list Q) (L : Q) (l l' : log) :
  ~ valid_mode (tolerance_decrease a) ->
  step lib a it st pr grads L l <> (Ok st', l').
Proof.
  intros Hmode H. apply step_inv in H.
  destruct H as (e1 & dl & _ & Hdec & _).
  rewrite decrease_invalid in Hdec by exact Hmode. discriminate Hdec.
Qed.

Lemma body_unknown_mode (it : Z) (st st' : state) (l l' : log) :
  ~ valid_mode (tolerance_decrease a) ->
  body lib O a it st l = (Ok st', l') ->
  L_lambda st = None /\ L_lambda st' = None.
Proof.
  intros Hmode H. apply body_inv in H. destruct H as (pr & l1 & Hasm & Hc).
  destruct (takes_step_dec lib st pr) as [Ht | [HL Hz]].
  - rewrite (control_takes_step lib a it _ _ Ht) in Hc.
    exfalso. eapply step_unknown_mode; eauto.
  - rewrite (control_skips lib a it _ _ _ HL Hz) in Hc.
    inversion Hc; subst; simpl; auto.
Qed.

Lemma loop_unknown_mode (its : list Z) (st st' : state) (l l' : log) :
  ~ valid_mode (tolerance_decrease a) ->
  loop lib O a its st l = (Ok st', l') ->
  L_lambda st = None -> L_lambda st' = None.
Proof.
  intros Hmode. revert st l; induction its as [|it its IH]; intros st l H HN.
  - simpl in H; unfold ret in H; inversion H; subst; exact HN.
  - simpl in H. inv_bind H.
    destruct (body_unknown_mode _ _ _ _ _ Hmode E) as (_ & HN1).
    eapply IH; eauto.
Qed.

(** When every hypergradient has norm zero, the loop skips every
    iteration and returns. *)
Lemma loop_all_skipped (its : list Z) (st : state) (l : log) :
  (forall s m, exists pr m1,
      assemble lib O s m = (Ok pr, m1) /\ norm lib (p_grad_lambda pr) == 0) ->
  L_lambda st = None ->
  exists st' l',
    loop lib O a its st l = (Ok st', l') /\
    L_lambda st' = None /\ lambdak st' = lambdak st.
Proof.
  intros Hflat. revert st l; induction its as [|it its IH]; intros st l HN.
  - exists st, l; simpl; auto.
  - destruct (Hflat st l) as (pr & l1 & Hasm & Hz).
    simpl. unfold bind.
    rewrite (body_after_assemble lib O a it _ _ _ _ Hasm).
    rewrite (control_skips lib a it _ _ _ HN Hz).
    match goal with
    | |- context [loop lib O a its ?s ?m] =>
        destruct (IH s m eq_refl) as (st' & l' & Hl & HN' & Hlam)
    end.
    exists st', l'. rewrite Hl. simpl in Hlam. auto.
Qed.

(** C9 (as amended).  A bounds list of the wrong length, and then a
    non-positive [maxls], raise [ValueError] before anything is called.  An
    unrecognised mode is only met at the tolerance decay: an iteration that
    takes the step raises [NotImplementedError] after its six calls, before
    the callback, and the run ends there - provided the update of the
    hyperparameters just before succeeds, which it does when they and the
    hypergradient have the same length or one of the two has length 1;
    otherwise that update raises [ValueError] first.  So a run with such a
    mode that returns has skipped every iteration and returns [lambda0];
    it does return, once the work array is allocated, when [maxiter <= 1]
    and when every hypergradient has norm zero. *)
Theorem invalid_configuration_outcomes :
  (forall l, ~ bounds_fit a ->
     minimize lib O a l =
       (Raise (ValueError "length of x0 != length of bounds"), l)) /\
  (forall l, bounds_fit a -> (maxls a <= 0)%Z ->
     minimize lib O a l = (Raise (ValueError "maxls must be positive."), l)) /\
  (forall it rest st l pr l1,
     ~ valid_mode (tolerance_decrease a) ->
     assemble lib O st l = (Ok pr, l1) ->
     takes_step lib st pr ->
     length (lambdak st) = length (p_grad_lambda pr) \/
     length (lambdak st) = 1%nat \/ length (p_grad_lambda pr) = 1%nat ->
     loop lib O a (it :: rest) st l = (Raise NotImplementedError, l1)) /\
  (forall it rest st l pr l1,
     assemble lib O st l = (Ok pr, l1) ->
     takes_step lib st pr ->
     length (lambdak st) <> length (p_grad_lambda pr) ->
     length (lambdak st) <> 1%nat -> length (p_grad_lambda pr) <> 1%nat ->
     loop lib O a (it :: rest) st l =
       (Raise (ValueError "operands could not be broadcast together"), l1)) /\
  (forall x lam status l l',
     ~ valid_mode (tolerance_decrease a) ->
     minimize lib O a l = (Ok (x, lam, status), l') ->
     lam = lambda0 a) /\
  (forall l, ~ valid_mode (tolerance_decrease a) ->
     bounds_fit a -> (0 < maxls a)%Z -> (0 <= wa_size a)%Z ->
     zeros lib (wa_size a) = Ok tt ->
     callback_quiet a -> (maxiter a <= 1)%Z ->
     minimize lib O a l =
       (Ok (arg_x0 a, lambda0 a, 0%Z), after_callback a l (arg_x0 a) (lambda0 a))) /\
  (forall l, ~ valid_mode (tolerance_decrease a) ->
     bounds_fit a -> (0 < maxls a)%Z -> (0 <= wa_size a)%Z ->
     zeros lib (wa_size a) = Ok tt ->
     callback_quiet a ->
     (forall s m, exists pr m1,
         assemble lib O s m = (Ok pr, m1) /\
         norm lib (p_grad_lambda pr) == 0) ->
     exists x l', minimize lib O a l = (Ok (x, lambda0 a, 0%Z), l')).
Proof.
  split; [|split; [|split; [|split; [|split; [|split]]]]].
  - intros l Hb. unfold minimize.
    destruct (length _ =? _)%nat eqn:E;
      [exfalso; apply Hb, bounds_fit_check; exact E|].
    reflexivity.
  - intros l Hb Hls. unfold minimize.
    apply bounds_fit_check in Hb; rewrite Hb; simpl.
    replace (0 <? maxls a)%Z with false by (symmetry; apply Z.ltb_ge; exact Hls).
    reflexivity.
  - intros it rest st l pr l1 Hmode Hasm Ht Hshape.
    apply loop_raises.
    rewrite (body_after_assemble lib O a it _ _ _ _ Hasm).
    rewrite (control_takes_step lib a it _ _ Ht).
    unfold step, bind, lift.
    destruct (vsub_broadcasts (lambdak st)
                (scale (1 / L_entering lib st pr) (p_grad_lambda pr)))
      as (tmp & Htmp); [rewrite scale_length; exact Hshape|].
    rewrite Htmp.
    rewrite decrease_invalid by exact Hmode. reflexivity.
  - intros it rest st l pr l1 Hasm Ht Hne H1 H2.
    apply loop_raises.
    rewrite (body_after_assemble lib O a it _ _ _ _ Hasm).
    rewrite (control_takes_step lib a it _ _ Ht).
    unfold step, bind, lift.
    rewrite vsub_mismatch by (rewrite ?scale_length; assumption).
    reflexivity.
  - intros x lam status l l' Hmode H. unfold minimize in H.
    destruct (negb _) in H; [discriminate H|].
    destruct (negb _) in H; [discriminate H|].
    destruct (_ <? _)%Z in H; [discriminate H|].
    unfold bind in H.
    destruct (lift (zeros lib (wa_size a)) l) as [[u|?] la]; [|discriminate H].
    destruct (run_callback a (arg_x0 a) (lambda0 a) la) as [[u'|?] lb];
      [|discriminate H].
    destruct (loop lib O a (py_range 1 (maxiter a)) (init_state a) lb)
      as [[stf|?] lc] eqn:El; [|discriminate H].
    unfold ret in H; inversion H; subst; clear H.
    pose proof (loop_unknown_mode _ _ _ _ _ Hmode El eq_refl) as HN.
    destruct (loop_while_unset lib O a _ _ _ _ _ El HN) as (_ & Hlam & _).
    exact Hlam.
  - intros l Hmode Hb Hls Hwa Hz Hcb Hit. unfold minimize.
    assert (Hr : py_range 1 (maxiter a) = []).
    { unfold py_range. replace (Z.to_nat (maxiter a - 1)) with 0%nat by lia.
      reflexivity. }
    apply bounds_fit_check in Hb; rewrite Hb, Hr.
    replace (0 <? maxls a)%Z with true by (symmetry; apply Z.ltb_lt; exact Hls).
    replace (wa_size a <? 0)%Z with false by (symmetry; apply Z.ltb_ge; exact Hwa).
    cbn [negb]. unfold bind, lift.
    rewrite Hz, run_callback_quiet by exact Hcb.
    reflexivity.
  - intros l Hmode Hb Hls Hwa Hz Hcb Hflat. unfold minimize.
    apply bounds_fit_check in Hb; rewrite Hb.
    replace (0 <? maxls a)%Z with true by (symmetry; apply Z.ltb_lt; exact Hls).
    replace (wa_size a <? 0)%Z with false by (symmetry; apply Z.ltb_ge; exact Hwa).
    cbn [negb]. unfold bind, lift.
    rewrite Hz, run_callback_quiet by exact Hcb.
    destruct (loop_all_skipped (py_range 1 (maxiter a)) (init_state a)
                (after_callback a l (arg_x0 a) (lambda0 a)) Hflat eq_refl)
      as (st' & l' & Hl & _ & Hlam).
    rewrite Hl. unfold ret. exists (x0 st'), l'.
    rewrite Hlam. reflexivity.
Qed.

End Invalid.

(** * The return value *)

Section Return.

Variable lib : scipy.
Variable O : oracles.
Variable a : args.

Lemma py_range_last (m : Z) :
  (2 <= m)%Z -> py_range 1 m = py_range 1 (m - 1) ++ [(m - 1)%Z].
Proof.
  intros Hm. unfold py_range.
  replace (Z.to_nat (m - 1)) with (S (Z.to_nat (m - 1 - 1))) by lia.
  rewrite seq_S, map_app.
  replace (map (fun k => (1 + Z.of_nat k)%Z) [(0 + Z.to_nat (m - 1 - 1))%nat])
    with [(m - 1)%Z]; [reflexivity|].
  cbn [map]. f_equal. lia.
Qed.

(** X12.  With [maxiter >= 2], the [x] a run returns is what the inner
    solver answered in the last iteration, that is, for the
    hyperparameters that iteration started from; the hyperparameters
    returned are those the iteration ended with.  The two coincide when
    the last iteration was skipped, that is, when [L_lambda] is still
    unset at the end. *)
Theorem returned_x_was_solved_before_the_last_update
    (x lam : vec) (status : Z) (l0 l' : log) :
  minimize lib O a l0 = (Ok (x, lam, status), l') ->
  (2 <= maxiter a)%Z ->
  exists st l st',
    body lib O a (maxiter a - 1) st l = (Ok st', l') /\
    h_sol_approx O (x0 st) (lambdak st) (epsilon_tol st) = Ok x /\
    lam = lambdak st' /\
    (L_lambda st' = None -> lambdak st' = lambdak st).
Proof.
  unfold minimize; intros H Hm.
  destruct (negb _) in H; [discriminate H|].
  destruct (negb _) in H; [discriminate H|].
  destruct (_ <? _)%Z in H; [discriminate H|].
  unfold bind in H.
  destruct (lift (zeros lib (wa_size a)) l0) as [[u|?] la]; [|discriminate H].
  destruct (run_callback a (arg_x0 a) (lambda0 a) la) as [[u'|?] lb];
    [|discriminate H].
  destruct (loop lib O a (py_range 1 (maxiter a)) (init_state a) lb)
    as [[stf|?] lc] eqn:E0; [|discriminate H].
  unfold ret in H; inversion H; subst; clear H.
  rewrite (py_range_last _ Hm), loop_app in E0.
  unfold bind in E0.
  destruct (loop lib O a (py_range 1 (maxiter a - 1)) (init_state a) _)
    as [[st|?] lk] eqn:Hpre; [|discriminate E0].
  simpl in E0. unfold bind in E0.
  destruct (body lib O a (maxiter a - 1) st lk) as [[st'|?] lk'] eqn:Hb;
    [|discriminate E0].
  unfold ret in E0; inversion E0; subst; clear E0.
  eexists; eexists; eexists. split; [exact Hb|].
  apply body_inv in Hb. destruct Hb as (pr & l1 & Hasm & Hc).
  destruct (assemble_inv lib O _ _ _ _ Hasm)
    as (fhs & rhs & s & gc & hc & hq & Hsol & _).
  destruct (takes_step_dec lib st pr) as [Ht | [HL Hz]].
  - rewrite (control_takes_step lib a _ _ _ Ht) in Hc.
    apply step_carries in Hc. destruct Hc as (Hx & _ & HL & _).
    rewrite Hx. repeat split; auto. intros HN; contradiction.
  - rewrite (control_skips lib a _ _ _ _ HL Hz) in Hc.
    inversion Hc; subst; simpl. auto.
Qed.

End Return.

(** * The estimator classes *)

Section EstimatorFacts.

Import Estimators.

Variable lib : scipy.
Variable kern : kernels.

(** X13.  Whatever the training set, the call [KernelRidgeCV.fit] makes
    passes the three checks of the routine, with a work array of
    [25 n + 1180] entries for [n] training samples: [fit] can only raise
    what the allocation of that array, the callback or an iteration
    raises. *)
Theorem KernelRidgeCV_fit_passes_the_checks
    (O : oracles) (self : KernelRidgeCV) (Xt : matrix)
    (cb : option (vec -> vec -> result unit)) (l : log) :
  let a := fit_args self Xt cb in
  bounds_fit a /\ (0 < maxls a)%Z /\ (0 <= wa_size a)%Z /\
  wa_size a = (25 * Z.of_nat (length Xt) + 1180)%Z /\
  minimize lib O a l =
    (_ <- lift (zeros lib (wa_size a)) ;;
     _ <- run_callback a (arg_x0 a) (lambda0 a) ;;
     st <- loop lib O a (py_range 1 (maxiter a)) (init_state a) ;;
     ret (x0 st, lambdak st, 0%Z)) l.
Proof.
  cbv zeta.
  assert (Hb : bounds_fit (fit_args self Xt cb)) by exact I.
  assert (Hs : wa_size (fit_args self Xt cb)
               = (25 * Z.of_nat (length Xt) + 1180)%Z).
  { unfold wa_size; cbn [maxcor arg_x0 fit_args].
    rewrite repeat_length. lia. }
  assert (Hw : (0 <= wa_size (fit_args self Xt cb))%Z).
  { rewrite Hs. pose proof (Nat2Z.is_nonneg (length Xt)). lia. }
  split; [exact Hb|]. split; [reflexivity|]. split; [exact Hw|].
  split; [exact Hs|].
  unfold minimize.
  apply bounds_fit_check in Hb. rewrite Hb.
  replace (wa_size (fit_args self Xt cb) <? 0)%Z with false
    by (symmetry; apply Z.ltb_ge; exact Hw).
  reflexivity.
Qed.

(** X14.  [KernelRidgeCV(max_iter=m).fit] with [m <= 1], once the work
    array is allocated, calls no oracle: it returns the estimator with
    [coef_] all zeros, one per training sample, and [alpha_] equal to
    [alpha0]. *)
Theorem KernelRidgeCV_fit_without_iterations
    (O : oracles) (self : KernelRidgeCV) (Xt : matrix)
    (cb : option (vec -> vec -> result unit)) (l : log) :
  (cv_max_iter self <= 1)%Z ->
  zeros lib (wa_size (fit_args self Xt cb)) = Ok tt ->
  callback_quiet (fit_args self Xt cb) ->
  KernelRidgeCV_fit lib O self Xt cb l =
    (Ok {| cv_tolerance_decrease := cv_tolerance_decrease self;
           cv_alpha0 := cv_alpha0 self; cv_max_iter := cv_max_iter self;
           coef_ := Some (repeat 0 (length Xt));
           alpha_ := Some (cv_alpha0 self) |},
     after_callback (fit_args self Xt cb) l (repeat 0 (length Xt)) (cv_alpha0 self)).
Proof.
  intros Hm Hz Hcb.
  unfold KernelRidgeCV_fit, bind at 1.
  assert (Hr : py_range 1 (maxiter (fit_args self Xt cb)) = []).
  { unfold py_range; cbn [maxiter fit_args].
    replace (Z.to_nat (cv_max_iter self - 1)) with 0%nat by lia. reflexivity. }
  assert (Hw : (wa_size (fit_args self Xt cb) <? 0)%Z = false).
  { apply Z.ltb_ge. unfold wa_size; cbn [maxcor arg_x0 fit_args].
    pose proof (Nat2Z.is_nonneg (length (repeat 0 (length Xt)))). lia. }
  unfold minimize.
  rewrite (proj2 (bounds_fit_check (fit_args self Xt cb)) I), Hw, Hr.
  cbn [negb maxls fit_args Z.ltb Z.compare].
  unfold bind, lift. rewrite Hz, run_callback_quiet by exact Hcb.
  reflexivity.
Qed.

(** X15.  [KernelRidge.score], when it returns, returns a sum of squares:
    the value is never negative, and the estimator is left as it was. *)
Theorem KernelRidge_score_is_nonnegative
    (self self' : KernelRidge) (Xh : matrix) (yh : vec) (s : Q) :
  KernelRidge_score kern Xh yh self = (Done s, self') ->
  0 <= s /\ self' = self.
Proof.
  unfold KernelRidge_score, mbind, mret, read, pure, attribute, index, core.
  intros H. split_outcomes H; inversion H; subst.
  split; [apply inner_self_nonneg | reflexivity].
Qed.

(** X16.  [KernelRidge.fit] does not see a solve that did not converge:
    with at least two hyperparameters, a kernel matrix that adds up with
    the regulariser, and [cg] returning [(out, info)] for any integer
    [info], [fit] returns normally with [dual_coef_ = out] and the
    training inputs stored. *)
Theorem KernelRidge_fit_ignores_cg_info
    (self : KernelRidge) (Xt : matrix) (yt : vec) (a0 a1 : Q) (rest : vec)
    (K A : matrix) (out : vec) (info : Z) :
  kr_alpha0 self = a0 :: a1 :: rest ->
  pairwise_kernels kern Xt None (np_exp kern a0) = Ok K ->
  madd K (mscale (np_exp kern a1) (eye (length Xt))) = Ok A ->
  cg lib (aslinearoperator A) yt (Some (repeat 0 (length Xt))) cg_default_tol
    = Ok (out, PyInt info) ->
  KernelRidge_fit lib kern Xt yt self =
    (Done tt, {| kr_alpha0 := kr_alpha0 self; kr_Xt := Some Xt;
                 dual_coef_ := Some out |}).
Proof.
  intros Ha HK HA Hcg.
  unfold KernelRidge_fit, mbind, write, read, pure.
  cbn [kr_alpha0 kr_Xt dual_coef_].
  rewrite Ha. cbn [index nth_error]. rewrite HK. cbn [core].
  rewrite repeat_length, HA. cbn [core]. rewrite Hcg. cbn [core is_False].
  reflexivity.
Qed.

(** X17.  An estimator with fewer than two hyperparameters cannot be
    fitted: [fit] raises [IndexError] - at once when [alpha0] is empty,
    after the kernel matrix is computed when it has one entry - and leaves
    the estimator with the training inputs stored and [dual_coef_]
    untouched. *)
Theorem KernelRidge_fit_needs_two_hyperparameters
    (self : KernelRidge) (Xt : matrix) (yt : vec) :
  (kr_alpha0 self = [] ->
   KernelRidge_fit lib kern Xt yt self =
     (Failed IndexError,
      {| kr_alpha0 := []; kr_Xt := Some Xt; dual_coef_ := dual_coef_ self |})) /\
  (forall a0 K,
     kr_alpha0 self = [a0] ->
     pairwise_kernels kern Xt None (np_exp kern a0) = Ok K ->
     KernelRidge_fit lib kern Xt yt self =
       (Failed IndexError,
        {| kr_alpha0 := [a0]; kr_Xt := Some Xt; dual_coef_ := dual_coef_ self |})).
Proof.
  split.
  - intros Ha. unfold KernelRidge_fit, mbind, write, read, pure.
    cbn [kr_alpha0 kr_Xt dual_coef_]. rewrite Ha. reflexivity.
  - intros a0 K Ha HK.
    unfold KernelRidge_fit, mbind, write, read, pure.
    cbn [kr_alpha0 kr_Xt dual_coef_]. rewrite Ha. cbn [index nth_error].
    rewrite HK. reflexivity.
Qed.

(** X18.  [score] needs a fitted estimator: on a new one it raises
    [AttributeError]; after a [fit] that returned, the only errors it can
    raise are those of the kernel and of the array shapes. *)
Theorem KernelRidge_score_after_fit
    (alpha0 : vec) (self self' : KernelRidge) (Xt Xh : matrix) (yt yh : vec) :
  KernelRidge_score kern Xh yh (KernelRidge_init alpha0) =
    (Failed AttributeError, KernelRidge_init alpha0) /\
  (KernelRidge_fit lib kern Xt yt self = (Done tt, self') ->
   kr_Xt self' = Some Xt /\
   dual_coef_ self' <> None /\
   forall e self'',
     KernelRidge_score kern Xh yh self' = (Failed e, self'') ->
     exists c, e = Core c).
Proof.
  split; [reflexivity|].
  unfold KernelRidge_fit, mbind, write, read, pure. intros H.
  cbn [kr_alpha0 kr_Xt dual_coef_] in H.
  destruct (index (kr_alpha0 self) 0) as [a0|e0] eqn:E0; [|discriminate H].
  destruct (core (pairwise_kernels kern Xt None (np_exp kern a0)))
    as [K|?]; [|discriminate H].
  destruct (index (kr_alpha0 self) 1) as [a1|?]; [|discriminate H].
  destruct (core (madd K _)) as [A|?]; [|discriminate H].
  destruct (core (cg lib _ yt _ cg_default_tol)) as [[out success]|?];
    [|discriminate H].
  destruct (is_False success); [discriminate H|].
  inversion H; subst; clear H. cbn [kr_Xt dual_coef_].
  split; [reflexivity|]. split; [discriminate|].
  intros e self'' Hs.
  unfold KernelRidge_score, mbind, mret, read, pure, attribute in Hs.
  cbn [kr_alpha0 kr_Xt dual_coef_] in Hs. rewrite E0 in Hs.
  unfold core in Hs.
  split_outcomes Hs; inversion Hs; subst; eauto.
Qed.

End EstimatorFacts.

(** ** Instances of the further statements *)

Lemma six_calls_on_slope_oracles :
  exists st' l' x1 loss,
    body (Demo.lib (PyInt 0)) Demo.O_slope (Demo.args1 "exponential" 3) 1
         (init_state (Demo.args1 "exponential" 3)) [] = (Ok st', l') /\
    x0 st' = x1 /\
    g_func_old st' = loss /\
    calls K_h_sol_approx l' = 1%nat.
Proof.
  destruct (iteration_makes_six_calls_in_order
              (Demo.lib (PyInt 0)) Demo.O_slope (Demo.args1 "exponential" 3) 1
              (init_state (Demo.args1 "exponential" 3)) _ [] _ eq_refl)
    as (x1 & fhs & loss & rhs & q1 & s & _ & _ & _ & _ & Hx & _
        & [[HN _] | (_ & Hg & Hl)]).
  - discriminate HN.
  - eexists; eexists; exists x1, loss.
    split; [reflexivity|]. split; [exact Hx|]. split; [exact Hg|].
    reflexivity.
Defined.

Lemma warm_start_on_flat_oracles :
  exists x1 q1 x2 q2 s2 fhs2 rhs2 eps,
    h_sol_approx Demo.O_flat x1 [0] eps = Ok x2 /\
    cg (Demo.lib (PyInt 0))
       {| shape := (length x2, length x2); matvec := fun z => fhs2 z |}
       rhs2 (Some q1) eps = Ok (q2, s2).
Proof.
  destruct (solvers_are_warm_started
              (Demo.lib (PyInt 0)) Demo.O_flat (Demo.args1 "exponential" 3) 1 2
              (init_state (Demo.args1 "exponential" 3)) _ _ [] _ _
              eq_refl eq_refl)
    as (x1 & q1 & s1 & fhs1 & rhs1 & x2 & q2 & s2 & fhs2 & rhs2 & _ & _ & H3 & H4).
  exists x1, q1, x2, q2, s2, fhs2, rhs2. eexists.
  split; [exact H3 | exact H4].
Defined.

Lemma nothing_moves_on_flat_oracles :
  exists st l',
    loop (Demo.lib (PyInt 0)) Demo.O_flat (Demo.args1 "exponential" 3)
         (py_range 1 3) (init_state (Demo.args1 "exponential" 3)) [] = (Ok st, l') /\
    length (old_grads st) = 2%nat /\
    lambdak st = [0] /\
    epsilon_tol st == epsilon_tol_init * 0.1 ^ 2.
Proof.
  eexists; eexists. split; [vm_compute; reflexivity|].
  destruct (before_the_first_step_nothing_moves
              (Demo.lib (PyInt 0)) Demo.O_flat (Demo.args1 "exponential" 3)
              (py_range 1 3) _ [] _ eq_refl) as (Hlen & Hrest).
  destruct (Hrest eq_refl) as (Hlam & _ & He & _).
  split; [exact Hlen|]. split; [exact Hlam | exact He].
Defined.

Lemma tolerance_range_on_slope_oracles :
  exists st l',
    loop (Demo.lib (PyInt 0)) Demo.O_slope (Demo.args1 "cubic" 3)
         (py_range 1 3) (init_state (Demo.args1 "cubic" 3)) [] = (Ok st, l') /\
    0 <= epsilon_tol st /\ epsilon_tol st <= epsilon_tol_init.
Proof.
  eexists; eexists. split; [vm_compute; reflexivity|].
  exact (tolerance_stays_within_its_initial_value
           (Demo.lib (PyInt 0)) Demo.O_slope (Demo.args1 "cubic" 3)
           (py_range 1 3) _ [] _ eq_refl).
Defined.

Lemma unknown_mode_ends_the_run_on_slope_oracles :
  exists l',
    loop (Demo.lib (PyInt 0)) Demo.O_slope (Demo.args1 "linear" 3)
         ([] ++ [1%Z; 2%Z]) (init_state (Demo.args1 "linear" 3)) [] =
      (Raise NotImplementedError, l') /\
    (calls K_h_sol_approx l' <= 1)%nat.
Proof.
  destruct (exception_in_an_iteration_ends_the_run
              (Demo.lib (PyInt 0)) Demo.O_slope (Demo.args1 "linear" 3)
              [] [2%Z] 1 (init_state (Demo.args1 "linear" 3)) _ [] [] _
              NotImplementedError eq_refl eq_refl)
    as (Hrun & evs & Hl & Hk).
  eexists. split; [exact Hrun|].
  rewrite Hl. exact (Hk K_h_sol_approx).
Defined.

Lemma other_options_on_slope_oracles :
  minimize (Demo.lib (PyInt 0)) Demo.O_slope
           (with_options (Demo.args1 "exponential" 3)
                         (Some [(None, Some 1)]) 0 1) [] =
  minimize (Demo.lib (PyInt 0)) Demo.O_slope (Demo.args1 "exponential" 3) [].
Proof.
  apply bounds_maxcor_maxls_are_only_validated.
  - exact I.
  - reflexivity.
  - reflexivity.
  - reflexivity.
  - vm_compute; discriminate.
  - vm_compute; discriminate.
  - reflexivity.
  - reflexivity.
Defined.

Lemma allocation_fails_for_negative_maxcor :
  (0 <= wa_size (Demo.args1 "exponential" 3))%Z /\
  minimize (Demo.lib (PyInt 0)) Demo.O_slope Demo2.args_negative_maxcor [] =
    (Raise (ValueError "negative dimensions are not allowed"), []).
Proof.
  split.
  - apply (proj1 (work_array_allocation
                    (Demo.lib (PyInt 0)) Demo.O_slope
                    (Demo.args1 "exponential" 3))).
    vm_compute; discriminate.
  - apply (proj2 (work_array_allocation
                    (Demo.lib (PyInt 0)) Demo.O_slope
                    Demo2.args_negative_maxcor)).
    + exact I.
    + reflexivity.
    + reflexivity.
Defined.

Lemma stored_nan_on_slope_oracles :
  exists st' l',
    body (Demo.lib (PyInt 0)) Demo.O_slope (Demo.args1 "exponential" 3) 1
         (Demo2.st_with [0] NaN) [] = (Ok st', l') /\
    L_lambda st' = Some (5 * 1.2) /\
    g_func_old st' = Fin 1.
Proof.
  destruct (nan_loss_fails_the_test
              (Demo.lib (PyInt 0)) Demo.O_slope (Demo.args1 "exponential" 3) 1
              (Demo2.st_with [0] NaN) [] _ _ eq_refl)
    as (st' & l' & Hb & HL & _ & Hg).
  - left; discriminate.
  - reflexivity.
  - left; reflexivity.
  - discriminate.
  - apply args1_quiet.
  - right; reflexivity.
  - exists st', l'. split; [exact Hb|]. split; [exact HL | exact Hg].
Defined.

Lemma broadcast_on_wide_oracles :
  exists st' l',
    body (Demo.lib (PyInt 0)) Demo2.O_wide (Demo.args1 "exponential" 3) 1
         (Demo2.st_with [0] (Fin 2)) [] = (Ok st', l') /\
    length (lambdak st') = 2%nat.
Proof.
  destruct (single_hyperparameter_is_broadcast
              (Demo.lib (PyInt 0)) Demo2.O_wide (Demo.args1 "exponential" 3) 1
              (Demo2.st_with [0] (Fin 2)) [] _ _ 0 eq_refl)
    as (st' & l' & Hb & Hlam).
  - left; discriminate.
  - reflexivity.
  - left; reflexivity.
  - discriminate.
  - apply args1_quiet.
  - exists st', l'. split; [exact Hb|]. rewrite Hlam. reflexivity.
Defined.

Lemma mismatch_on_tall_oracles :
  exists l1,
    body (Demo.lib (PyInt 0)) Demo2.O_tall (Demo.args1 "exponential" 3) 1
         (Demo2.st_with [0; 0] (Fin 2)) [] =
      (Raise (ValueError "operands could not be broadcast together"), l1).
Proof.
  eexists.
  eapply (shape_mismatch_raises_at_the_update
            (Demo.lib (PyInt 0)) Demo2.O_tall (Demo.args1 "exponential" 3) 1
            (Demo2.st_with [0; 0] (Fin 2)) []).
  - cbv; reflexivity.
  - left; discriminate.
  - simpl; lia.
  - simpl; lia.
  - simpl; lia.
Defined.

Lemma descent_on_slope_oracles :
  exists st' l',
    body (Demo.lib (PyInt 0)) Demo.O_slope (Demo.args1 "exponential" 3) 1
         (Demo2.st_with [0] (Fin 2)) [] = (Ok st', l') /\
    inner (map2 Qminus (lambdak st') [0]) [0 - (1 * 1 + 0)] <= 0.
Proof.
  destruct (step_is_against_the_hypergradient
              (Demo.lib (PyInt 0)) Demo.O_slope (Demo.args1 "exponential" 3) 1
              (Demo2.st_with [0] (Fin 2)) [] _ _ eq_refl)
    as (st' & l' & Hb & _ & Hle).
  - left; discriminate.
  - reflexivity.
  - reflexivity.
  - left; reflexivity.
  - discriminate.
  - apply args1_quiet.
  - exists st', l'. split; [exact Hb | exact Hle].
Defined.

Lemma returned_x_on_slope_oracles :
  exists st st' l l',
    body (Demo.lib (PyInt 0)) Demo.O_slope (Demo.args1 "exponential" 3)
         (3 - 1) st l = (Ok st', l') /\
    h_sol_approx Demo.O_slope (x0 st) (lambdak st) (epsilon_tol st) = Ok [1].
Proof.
  destruct (returned_x_was_solved_before_the_last_update
              (Demo.lib (PyInt 0)) Demo.O_slope (Demo.args1 "exponential" 3)
              [1] _ _ [] _ eq_refl)
    as (st & l & st' & Hb & Hsol & _).
  - simpl; lia.
  - exists st, st', l. eexists. split; [exact Hb | exact Hsol].
Defined.

Lemma fit_without_iterations_on_one_sample :
  Estimators.KernelRidgeCV_fit (Demo.lib (PyInt 0)) Demo.O_slope
                               (Demo2.cv 1) [[0]] None [] =
    (Ok {| Estimators.cv_tolerance_decrease := "exponential";
           Estimators.cv_alpha0 := [0; 0];
           Estimators.cv_max_iter := 1;
           Estimators.coef_ := Some [0];
           Estimators.alpha_ := Some [0; 0] |}, []).
Proof.
  apply (KernelRidgeCV_fit_without_iterations
           (Demo.lib (PyInt 0)) Demo.O_slope (Demo2.cv 1) [[0]] None []).
  - simpl; lia.
  - reflexivity.
  - intros cb x lam H; discriminate H.
Defined.

Lemma score_on_one_sample :
  exists s self',
    Estimators.KernelRidge_score Demo2.kern [[0]] [3]
      {| Estimators.kr_alpha0 := [0; 0]; Estimators.kr_Xt := Some [[0]];
         Estimators.dual_coef_ := Some [2] |} = (Estimators.Done s, self') /\
    0 <= s.
Proof.
  eexists; eexists. split; [vm_compute; reflexivity|].
  refine (proj1 (KernelRidge_score_is_nonnegative Demo2.kern
                   {| Estimators.kr_alpha0 := [0; 0];
                      Estimators.kr_Xt := Some [[0]];
                      Estimators.dual_coef_ := Some [2] |} _ [[0]] [3] _ _)).
  vm_compute; reflexivity.
Defined.

Lemma fit_on_one_sample_without_convergence :
  Estimators.KernelRidge_fit (Demo2.lib1 (PyInt 1)) Demo2.kern [[0]] [4]
                             (Estimators.KernelRidge_init [0; 0]) =
    (Estimators.Done tt,
     {| Estimators.kr_alpha0 := [0; 0]; Estimators.kr_Xt := Some [[0]];
        Estimators.dual_coef_ := Some (map2 Qdiv [4] [1 + 1 * 1 + 0]) |}).
Proof.
  apply (KernelRidge_fit_ignores_cg_info
           (Demo2.lib1 (PyInt 1)) Demo2.kern
           (Estimators.KernelRidge_init [0; 0]) [[0]] [4] 0 0 []
           [[1]] [[1 + 1 * 1]] _ 1); reflexivity.
Defined.

Lemma fit_with_short_alpha0 :
  Estimators.KernelRidge_fit (Demo2.lib1 (PyInt 0)) Demo2.kern [[0]] [4]
                             (Estimators.KernelRidge_init []) =
    (Estimators.Failed Estimators.IndexError,
     {| Estimators.kr_alpha0 := []; Estimators.kr_Xt := Some [[0]];
        Estimators.dual_coef_ := None |}) /\
  Estimators.KernelRidge_fit (Demo2.lib1 (PyInt 0)) Demo2.kern [[0]] [4]
                             (Estimators.KernelRidge_init [0]) =
    (Estimators.Failed Estimators.IndexError,
     {| Estimators.kr_alpha0 := [0]; Estimators.kr_Xt := Some [[0]];
        Estimators.dual_coef_ := None |}).
Proof.
  split.
  - apply (proj1 (KernelRidge_fit_needs_two_hyperparameters
                    (Demo2.lib1 (PyInt 0)) Demo2.kern
                    (Estimators.KernelRidge_init []) [[0]] [4])).
    reflexivity.
  - apply (proj2 (KernelRidge_fit_needs_two_hyperparameters
                    (Demo2.lib1 (PyInt 0)) Demo2.kern
                    (Estimators.KernelRidge_init [0]) [[0]] [4]) 0 [[1]]);
      reflexivity.
Defined.

Lemma score_after_fit_on_one_sample :
  exists self',
    Estimators.KernelRidge_fit (Demo2.lib1 (PyInt 0)) Demo2.kern [[0]] [4]
                               (Estimators.KernelRidge_init [0; 0]) =
      (Estimators.Done tt, self') /\
    Estimators.kr_Xt self' = Some [[0]] /\
    Estimators.dual_coef_ self' <> None.
Proof.
  exists {| Estimators.kr_alpha0 := [0; 0]; Estimators.kr_Xt := Some [[0]];
            Estimators.dual_coef_ := Some [4 / 2] |}.
  split; [vm_compute; reflexivity|].
  destruct (proj2 (KernelRidge_score_after_fit
                     (Demo2.lib1 (PyInt 0)) Demo2.kern [0; 0]
                     (Estimators.KernelRidge_init [0; 0])
                     {| Estimators.kr_alpha0 := [0; 0];
                        Estimators.kr_Xt := Some [[0]];
                        Estimators.dual_coef_ := Some [4 / 2] |}
                     [[0]] [[0]] [4] [3]))
    as (HX & Hd & _).
  - vm_compute; reflexivity.
  - split; [exact HX | exact Hd].
Defined.

Lemma flat_oracles_are_degenerate (s : state) (m : log) :
  exists pr m1,
    assemble (Demo.lib (PyInt 0)) Demo.O_flat s m = (Ok pr, m1) /\
    norm (Demo.lib (PyInt 0)) (p_grad_lambda pr) == 0.
Proof.
  eexists; eexists. split; [cbv; reflexivity|].
  unfold Qeq; vm_compute; reflexivity.
Qed.

Lemma unknown_mode_is_no_valid_mode : ~ valid_mode "linear".
Proof. unfold valid_mode; intros [H | [H | [H | H]]]; discriminate H. Qed.

Lemma invalid_configurations_on_slope_oracles :
  minimize (Demo.lib (PyInt 0)) Demo.O_slope (Demo.args2 (Some []) 20) [] =
    (Raise (ValueError "length of x0 != length of bounds"), []) /\
  minimize (Demo.lib (PyInt 0)) Demo.O_slope (Demo.args2 None 0) [] =
    (Raise (ValueError "maxls must be positive."), []) /\
  (exists l1,
     loop (Demo.lib (PyInt 0)) Demo.O_slope (Demo.args1 "linear" 3)
          [1%Z; 2%Z] (init_state (Demo.args1 "linear" 3)) [] =
       (Raise NotImplementedError, l1) /\
     calls K_h_sol_approx l1 = 1%nat) /\
  (exists l1,
     loop (Demo.lib (PyInt 0)) Demo2.O_wide (Demo.args1 "linear" 3)
          [1%Z; 2%Z] (Demo2.st_with [0] (Fin 2)) [] =
       (Raise NotImplementedError, l1)) /\
  (exists l1,
     loop (Demo.lib (PyInt 0)) Demo2.O_tall (Demo.args1 "linear" 3)
          [1%Z; 2%Z] (Demo2.st_with [0; 0] (Fin 2)) [] =
       (Raise (ValueError "operands could not be broadcast together"), l1)) /\
  minimize (Demo.lib (PyInt 0)) Demo.O_slope (Demo.args1 "linear" 1) [] =
    (Ok ([0], [0], 0%Z), []) /\
  (exists x l',
     minimize (Demo.lib (PyInt 0)) Demo.O_flat (Demo.args1 "linear" 3) [] =
       (Ok (x, [0], 0%Z), l')).
Proof.
  split; [|split; [|split; [|split; [|split; [|split]]]]].
  - apply (proj1 (invalid_configuration_outcomes
                    (Demo.lib (PyInt 0)) Demo.O_slope (Demo.args2 (Some []) 20))).
    unfold bounds_fit; simpl; discriminate.
  - apply (proj1 (proj2 (invalid_configuration_outcomes
                           (Demo.lib (PyInt 0)) Demo.O_slope (Demo.args2 None 0)))).
    + exact I.
    + simpl; lia.
  - eexists. split.
    + eapply (proj1 (proj2 (proj2 (invalid_configuration_outcomes
                (Demo.lib (PyInt 0)) Demo.O_slope (Demo.args1 "linear" 3))))).
      * exact unknown_mode_is_no_valid_mode.
      * cbv; reflexivity.
      * right. unfold Qeq; vm_compute; discriminate.
      * left; reflexivity.
    + vm_compute; reflexivity.
  - eexists.
    eapply (proj1 (proj2 (proj2 (invalid_configuration_outcomes
              (Demo.lib (PyInt 0)) Demo2.O_wide (Demo.args1 "linear" 3))))).
    + exact unknown_mode_is_no_valid_mode.
    + cbv; reflexivity.
    + left; discriminate.
    + right; left; reflexivity.
  - eexists.
    eapply (proj1 (proj2 (proj2 (proj2 (invalid_configuration_outcomes
              (Demo.lib (PyInt 0)) Demo2.O_tall (Demo.args1 "linear" 3)))))).
    + cbv; reflexivity.
    + left; discriminate.
    + simpl; lia.
    + simpl; lia.
    + simpl; lia.
  - apply (proj1 (proj2 (proj2 (proj2 (proj2 (proj2
             (invalid_configuration_outcomes
                (Demo.lib (PyInt 0)) Demo.O_slope (Demo.args1 "linear" 1)))))))).
    + exact unknown_mode_is_no_valid_mode.
    + exact I.
    + simpl; lia.
    + vm_compute; discriminate.
    + reflexivity.
    + apply args1_quiet.
    + simpl; lia.
  - apply (proj2 (proj2 (proj2 (proj2 (proj2 (proj2
             (invalid_configuration_outcomes
                (Demo.lib (PyInt 0)) Demo.O_flat (Demo.args1 "linear" 3)))))))).
    + exact unknown_mode_is_no_valid_mode.
    + exact I.
    + simpl; lia.
    + vm_compute; discriminate.
    + reflexivity.
    + apply args1_quiet.
    + exact flat_oracles_are_degenerate.
Defined.
